(** * DevAssist local analysis core: a shallow embedding

    The development models the deterministic fallback engines of the
    [AIClient] class (security rule engine, eco rule engine, embedding
    generator) and the [VectorStore] similarity index, and states their
    properties.

    Modelling conventions.
    - A JavaScript string is a list of code units; the model covers the code
      units U+0000..U+00FF, carried by [ascii].  [toLowerCase], the
      white-space class and the case folding of the [i] flag follow
      ECMAScript on that range.
    - A regular expression literal is written as a term of [regex]; its
      source text is quoted next to it.  Matching is the backtracking
      semantics of ECMAScript (ordered alternation, greedy and lazy
      quantifiers, capture groups, back-references).
    - Integer-valued numbers are [Z]; decimal literals are exact rationals
      [Q]; square roots and the quotients that follow them are taken in [R]
      (IEEE rounding is idealised). *)

From Stdlib Require Import Reals Qreals Lra.
From Stdlib Require Import String Ascii List Bool Arith ZArith QArith Lia.
From Stdlib Require Import Permutation Sorted DecimalString.
From Stdlib Require Lqa.
Import ListNotations.
Open Scope string_scope.
Open Scope list_scope.
Open Scope nat_scope.

Set Implicit Arguments.

(* ------------------------------------------------------------------ *)
(** ** JavaScript strings *)

Module JSString.

Definition str := list ascii.

Definition lit (s : string) : str := list_ascii_of_string s.

Definition code (c : ascii) : nat := nat_of_ascii c.

Definition between (lo hi n : nat) : bool := (lo <=? n) && (n <=? hi).

(** [String.prototype.toLowerCase], one code unit at a time. *)
Definition lowerChar (c : ascii) : ascii :=
  let n := code c in
  if between 65 90 n then ascii_of_nat (n + 32)
  else if between 192 222 n && negb (n =? 215) then ascii_of_nat (n + 32)
  else c.

Definition toLowerCase (s : str) : str := map lowerChar s.

(** The [Canonicalize] operation of a case-insensitive regular expression
    (simple upper-case folding).  U+00B5, U+00DF and U+00FF are left alone:
    their upper-case forms lie outside the range or are not single units. *)
Definition canon (c : ascii) : ascii :=
  let n := code c in
  if between 97 122 n then ascii_of_nat (n - 32)
  else if between 224 254 n && negb (n =? 247) then ascii_of_nat (n - 32)
  else c.

Definition isDigit (c : ascii) : bool := between 48 57 (code c).
Definition isUpper (c : ascii) : bool := between 65 90 (code c).
Definition isLower (c : ascii) : bool := between 97 122 (code c).
Definition isWord (c : ascii) : bool :=
  isDigit c || isUpper c || isLower c || (code c =? 95).
Definition isLineTerminator (c : ascii) : bool :=
  (code c =? 10) || (code c =? 13).
(** White space and line terminators: the class [\s], also what [trim]
    strips. *)
Definition isSpace (c : ascii) : bool :=
  between 9 13 (code c) || (code c =? 32) || (code c =? 160).

Fixpoint startsWith (w s : str) : bool :=
  match w, s with
  | [], _ => true
  | _ :: _, [] => false
  | a :: w', b :: s' => Ascii.eqb a b && startsWith w' s'
  end.

(** [s.includes(w)] *)
Fixpoint includes (s w : str) : bool :=
  startsWith w s ||
  match s with
  | [] => false
  | _ :: s' => includes s' w
  end.

Fixpoint str_eqb (a b : str) : bool :=
  match a, b with
  | [], [] => true
  | x :: a', y :: b' => Ascii.eqb x y && str_eqb a' b'
  | _, _ => false
  end.

(** [l.includes(x)] on an array of strings, [set.has(x)] on a [Set]. *)
Definition has (l : list str) (x : str) : bool := existsb (str_eqb x) l.

Fixpoint dropWhile (p : ascii -> bool) (s : str) : str :=
  match s with
  | [] => []
  | c :: s' => if p c then dropWhile p s' else s
  end.

Definition trim (s : str) : str :=
  rev (dropWhile isSpace (rev (dropWhile isSpace s))).

(** [s.split(sep)] for a one-unit separator: never empty. *)
Fixpoint splitChar (sep : ascii) (s : str) : list str :=
  match s with
  | [] => [[]]
  | c :: s' =>
      if Ascii.eqb c sep then [] :: splitChar sep s'
      else match splitChar sep s' with
           | [] => [[c]]
           | l :: ls => (c :: l) :: ls
           end
  end.

(** [a.join(sep)] *)
Fixpoint join (sep : str) (l : list str) : str :=
  match l with
  | [] => []
  | [x] => x
  | x :: l' => x ++ sep ++ join sep l'
  end.

(** [lowercaseCode.includes(w)], with [lowercaseCode = code.toLowerCase()]. *)
Definition lc (code : str) (w : string) : bool :=
  includes (toLowerCase code) (lit w).

(** The double quote character. *)
Definition dquote : ascii := ascii_of_nat 34.

(** The line feed, written [\n] in the source. *)
Definition newline : ascii := ascii_of_nat 10.

End JSString.

Import JSString.

(* ------------------------------------------------------------------ *)
(** ** Regular expressions *)

Module Regex.

Inductive regex : Type :=
| Eps                                   (* the empty pattern *)
| Chr (c : ascii)                       (* a literal code unit *)
| Cls (neg : bool) (p : ascii -> bool)  (* a class, [neg] for [^...] *)
| Seq (r1 r2 : regex)
| Alt (r1 r2 : regex)                   (* ordered alternation *)
| Star (greedy : bool) (r : regex)      (* [r*] and [r*?] *)
| Grp (n : nat) (r : regex)             (* the n-th capture group *)
| Ref (n : nat)                         (* the back-reference \n *)
| Eol.                                  (* [$] without the m flag *)

Definition caps := list (nat * str).

Fixpoint capture (n : nat) (cs : caps) : option str :=
  match cs with
  | [] => None
  | (k, w) :: cs' => if Nat.eqb k n then Some w else capture n cs'
  end.

Definition chrEq (ic : bool) (a b : ascii) : bool :=
  if ic then Ascii.eqb (canon a) (canon b) else Ascii.eqb a b.

(** Membership in a class of code units below U+0080: with the [i] flag a
    unit belongs when a member has the same canonical form, which for such
    members is one of its two cases. *)
Definition clsMem (ic : bool) (p : ascii -> bool) (c : ascii) : bool :=
  if ic then p c || p (lowerChar c) || p (canon c) else p c.

Fixpoint startsWithI (ic : bool) (w s : str) : option str :=
  match w, s with
  | [], _ => Some s
  | _ :: _, [] => None
  | a :: w', b :: s' => if chrEq ic a b then startsWithI ic w' s' else None
  end.

Section Matcher.

Variable ic : bool.
Variable A : Type.

(** [m r s cs k]: match [r] at the head of [s] under captures [cs], then
    continue with [k] on what is left; [None] makes the caller
    backtrack. *)
Fixpoint m (r : regex) (s : str) (cs : caps)
           (k : str -> caps -> option A) {struct r} : option A :=
  match r with
  | Eps => k s cs
  | Chr c =>
      match s with
      | x :: s' => if chrEq ic c x then k s' cs else None
      | [] => None
      end
  | Cls neg p =>
      match s with
      | x :: s' => if xorb neg (clsMem ic p x) then k s' cs else None
      | [] => None
      end
  | Seq r1 r2 => m r1 s cs (fun s1 c1 => m r2 s1 c1 k)
  | Alt r1 r2 =>
      match m r1 s cs k with
      | Some a => Some a
      | None => m r2 s cs k
      end
  | Star greedy r1 =>
      (fix loop (fuel : nat) (s : str) (cs : caps) {struct fuel} : option A :=
         match fuel with
         | O => k s cs
         | S f =>
             if greedy then
               match m r1 s cs (fun s1 c1 =>
                       if length s1 <? length s then loop f s1 c1 else None)
               with
               | Some a => Some a
               | None => k s cs
               end
             else
               match k s cs with
               | Some a => Some a
               | None =>
                   m r1 s cs (fun s1 c1 =>
                     if length s1 <? length s then loop f s1 c1 else None)
               end
         end) (length s) s cs
  | Grp n r1 =>
      m r1 s cs (fun s1 c1 =>
        k s1 ((n, firstn (length s - length s1) s) :: c1))
  | Ref n =>
      match capture n cs with
      | None => k s cs
      | Some w =>
          match startsWithI ic w s with
          | Some s' => k s' cs
          | None => None
          end
      end
  | Eol =>
      match s with
      | [] => k s cs
      | _ :: _ => None
      end
  end.

End Matcher.

(** A regular expression object: the pattern and its [i] flag.  (The [g]
    flag only selects the operation: [matchAll], [matchCount],
    [removeAll].) *)
Record RegExp := mkRegExp { pattern : regex; ignoreCase : bool }.

(** A match: the text before it, the matched text, the captures, the rest. *)
Record Match := mkMatch
  { before : str; matched : str; groups : caps; rest : str }.

(** The continuation at the end of the pattern: the match found in [s],
    with [s'] left over. *)
Definition accept (s s' : str) (cs : caps) : option Match :=
  Some (mkMatch [] (firstn (length s - length s') s) cs s').

(** Match at the head of [s] only (the sticky matcher). *)
Definition execAt (re : RegExp) (s : str) : option Match :=
  m (ignoreCase re) (pattern re) s [] (accept s).

(** [re.exec(s)]: the leftmost match. *)
Fixpoint exec (re : RegExp) (s : str) : option Match :=
  match execAt re s with
  | Some mt => Some mt
  | None =>
      match s with
      | [] => None
      | c :: s' =>
          match exec re s' with
          | Some mt => Some (mkMatch (c :: before mt) (matched mt) (groups mt) (rest mt))
          | None => None
          end
      end
  end.

Definition isSome {A : Type} (o : option A) : bool :=
  match o with Some _ => true | None => false end.

(** A continuation that accepts whatever is left. *)
Definition total {A : Type} (k : str -> caps -> option A) : Prop :=
  forall s cs, isSome (k s cs) = true.

(** [re.test(s)], and the truth value of [s.match(re)] without [g]. *)
Definition test (re : RegExp) (s : str) : bool := isSome (exec re s).

(** The successive matches of a [g] regular expression: the next search
    starts where the last match ended, one unit further after an empty
    match. *)
Fixpoint matchesFrom (fuel : nat) (re : RegExp) (s : str) : list Match :=
  match fuel with
  | O => []
  | S f =>
      match exec re s with
      | None => []
      | Some mt =>
          match matched mt, rest mt with
          | [], [] => [mt]
          | [], _ :: s' => mt :: matchesFrom f re s'
          | _ :: _, _ => mt :: matchesFrom f re (rest mt)
          end
      end
  end.

Definition matchAll (re : RegExp) (s : str) : list Match :=
  matchesFrom (S (length s)) re s.

(** [(s.match(re) || []).length] for a [g] regular expression. *)
Definition matchCount (re : RegExp) (s : str) : nat := length (matchAll re s).

(** [s.replace(re, '')] for a [g] regular expression. *)
Fixpoint removeFrom (fuel : nat) (re : RegExp) (s : str) : str :=
  match fuel with
  | O => s
  | S f =>
      match exec re s with
      | None => s
      | Some mt =>
          match matched mt, rest mt with
          | [], [] => before mt
          | [], c :: s' => before mt ++ c :: removeFrom f re s'
          | _ :: _, _ => before mt ++ removeFrom f re (rest mt)
          end
      end
  end.

Definition removeAll (re : RegExp) (s : str) : str :=
  removeFrom (S (length s)) re s.

(** [s.split(re)] for a pattern without capture groups: the separator is
    tried at every position after the last cut, an empty separator at the
    cut itself is skipped.  [acc] is the piece being read, reversed. *)
Fixpoint splitFrom (re : RegExp) (fuel : nat) (acc : str) (s : str) : list str :=
  match fuel with
  | O => [rev acc ++ s]
  | S f =>
      match s with
      | [] => [rev acc]
      | c :: s' =>
          match execAt re s with
          | Some mt =>
              match matched mt, acc with
              | [], [] => splitFrom re f [c] s'
              | [], _ :: _ => rev acc :: splitFrom re f [c] s'
              | _ :: _, _ => rev acc :: splitFrom re f [] (rest mt)
              end
          | None => splitFrom re f (c :: acc) s'
          end
      end
  end.

Definition split (re : RegExp) (s : str) : list str :=
  match s with
  | [] => if isSome (execAt re []) then [] else [[]]
  | _ :: _ => splitFrom re (length s) [] s
  end.

(** [for (const pattern of patterns) if (pattern.test(s)) { flag = true; break }] *)
Definition anyTest (patterns : list RegExp) (s : str) : bool :=
  existsb (fun p => test p s) patterns.

(** *** Pattern combinators *)

Fixpoint chars (w : str) : regex :=
  match w with
  | [] => Eps
  | [c] => Chr c
  | c :: w' => Seq (Chr c) (chars w')
  end.

(** A run of literal characters. *)
Definition txt (w : string) : regex := chars (lit w).

Fixpoint seqs (l : list regex) : regex :=
  match l with
  | [] => Eps
  | [r] => r
  | r :: l' => Seq r (seqs l')
  end.

Fixpoint alts (l : list regex) : regex :=
  match l with
  | [] => Eps
  | [r] => r
  | r :: l' => Alt r (alts l')
  end.

(** [w1|w2|...] over literal words. *)
Definition words (l : list string) : regex := alts (map txt l).

Definition star (r : regex) : regex := Star true r.
Definition lazyStar (r : regex) : regex := Star false r.
Definition plus (r : regex) : regex := Seq r (Star true r).
Definition opt (r : regex) : regex := Alt r Eps.
Fixpoint atLeast (n : nat) (r : regex) : regex :=
  match n with
  | O => Star true r
  | S n' => Seq r (atLeast n' r)
  end.

Definition oneOf (w : string) : ascii -> bool :=
  fun c => existsb (Ascii.eqb c) (lit w).

Definition space : regex := Cls false isSpace.      (* \s *)
Definition word : regex := Cls false isWord.        (* \w *)
Definition digit : regex := Cls false isDigit.      (* \d *)
Definition dot : regex := Cls true isLineTerminator. (* . *)
Definition anyChar : regex := Cls false (fun c => isSpace c || negb (isSpace c)). (* [\s\S] *)
Definition notChar (w : string) : regex := Cls true (oneOf w).  (* [^...] *)
Definition anyOf (w : string) : regex := Cls false (oneOf w).   (* [...] *)

Definition re (r : regex) : RegExp := mkRegExp r false.   (* /r/ *)
Definition rei (r : regex) : RegExp := mkRegExp r true.   (* /r/i *)

End Regex.

Import Regex.

(* ------------------------------------------------------------------ *)
(** ** The security rule engine: [AIClient.localSecurityAnalysis] *)

Module Security.

Inductive RiskLevel : Type := Low | Medium | High | Critical.

(** The values taken by the local variable [language]. *)
Inductive Language : Type := unknown | rust | java | python | javascript | c_cpp.

Definition languageName (l : Language) : string :=
  match l with
  | unknown => "unknown"
  | rust => "rust"
  | java => "java"
  | python => "python"
  | javascript => "javascript"
  | c_cpp => "c/c++"
  end.

Record SecurityReport := mkReport
  { riskLevel : RiskLevel;
    threats : list string;
    recommendations : list string;
    confidenceLevel : Q }.

(** The language cascade at the head of the function. *)
Definition detectLanguage (request : str) : Language :=
  if lc request "fn main" &&
     (lc request "impl" || lc request "struct" || lc request "use std")
  then rust
  else if lc request "public static void main" then java
  else if lc request "def " && (lc request "import " || lc request "class ")
  then python
  else if lc request "console.log" || lc request "function(" ||
          lc request "const " || lc request "let "
  then javascript
  else if lc request "#include" then c_cpp
  else unknown.

Definition isUnknown (l : Language) : bool :=
  match l with unknown => true | _ => false end.

Definition confidence (request : str) : Q :=
  let confidenceLevel := if isUnknown (detectLanguage request) then 0.6%Q else 0.7%Q in
  if length request <? 100 then (confidenceLevel - 0.2)%Q
  else if 1000 <? length request then (confidenceLevel + 0.1)%Q
  else confidenceLevel.

Definition httpVerbs : regex := words ["get"; "post"; "put"; "delete"; "patch"].

Definition apiEndpointPatterns : list RegExp :=
  [ re (Seq (txt "api/") (plus word));                           (* /api\/\w+/ *)
    re (seqs [txt "/v"; plus digit; txt "/"; plus word]);        (* /\/v\d+\/\w+/ *)
    re (words ["@route"; "@api"; "@endpoint"]);                  (* /@route|@api|@endpoint/ *)
    re (Seq (txt "router.") (Grp 1 httpVerbs));   (* /router\.(get|post|put|delete|patch)/ *)
    re (Seq (txt "app.") (Grp 1 httpVerbs));      (* /app\.(get|post|put|delete|patch)/ *)
    re (Seq (txt "@") (Grp 1 httpVerbs)) ].       (* /@(get|post|put|delete|patch)/ *)

Definition corsPatterns : list RegExp :=
  [ rei (txt "cors"); rei (txt "access-control-allow-origin"); rei (txt "origin:") ].

(** A single or a double quote, the group of the wildcard pattern. *)
Definition quoteMark : regex := Alt (Chr "'") (Chr dquote).

(** The pattern of a quoted star, with the [i] flag: a quote group, [\*],
    a quote group. *)
Definition wildcardPattern : RegExp :=
  rei (seqs [Grp 1 quoteMark; txt "*"; Grp 2 quoteMark]).

Definition authPatterns : list RegExp :=
  [ rei (words ["auth"; "authenticate"; "login"; "token"; "verify"; "session"]);
    rei (words ["jwt"; "oauth"; "passport"; "bearer"; "basic auth"]) ].

Definition validationPatterns : list RegExp :=
  [ rei (words ["validate"; "validation"; "sanitize"; "sanitization"; "escape"]);
    rei (words ["schema"; "joi"; "yup"; "zod"; "validator"; "isvalid"]) ].

Definition inputPatterns : list RegExp :=
  [ rei (words ["req.body"; "req.params"; "req.query"; "request."]);
    rei (words ["input"; "form data"; "formdata"; "parseform"]);
    rei (Seq (txt "get") (Grp 1 (words ["parameter"; "attribute"; "element"])));
    rei (txt ".val()") ].

(** [password|credit.?card|ssn|social.?security|passport|address|email|phone] *)
Definition sensitiveSource1 : regex :=
  alts [ txt "password"; seqs [txt "credit"; opt dot; txt "card"]; txt "ssn";
         seqs [txt "social"; opt dot; txt "security"]; txt "passport";
         txt "address"; txt "email"; txt "phone" ].

(** [personal.?data|pii|kyc|medical|health|financial] *)
Definition sensitiveSource2 : regex :=
  alts [ seqs [txt "personal"; opt dot; txt "data"]; txt "pii"; txt "kyc";
         txt "medical"; txt "health"; txt "financial" ].

Definition sensitiveDataPatterns : list RegExp :=
  [ rei sensitiveSource1; rei sensitiveSource2 ].

Definition encryptionPatterns : list RegExp :=
  [ rei (words ["encrypt"; "encryption"; "cipher"; "hash"; "bcrypt"; "scrypt"; "pbkdf2"]);
    rei (alts [ txt "aes"; txt "rsa"; Seq (txt "sha") (plus digit); txt "crypto";
                txt "ssl"; txt "tls" ]) ].

(** [console\.log|print|logger|debug|logging] *)
Definition loggingSource : regex :=
  words ["console.log"; "print"; "logger"; "debug"; "logging"].

Definition loggingPatterns : list RegExp := [ rei loggingSource ].

(** The two expressions built with [new RegExp(..., 'i')] from the sources
    joined by [|]: [(S1|S2).*?(L)] and [(L).*?(S1|S2)]. *)
Definition sensitiveThenLogging : RegExp :=
  rei (seqs [Grp 1 (Alt sensitiveSource1 sensitiveSource2); lazyStar dot; Grp 2 loggingSource]).
Definition loggingThenSensitive : RegExp :=
  rei (seqs [Grp 1 loggingSource; lazyStar dot; Grp 2 (Alt sensitiveSource1 sensitiveSource2)]).

(** [/try\s*{|catch\s*\(|except:|rescue|finally|throw|raise/i] *)
Definition errorHandlingPatterns : list RegExp :=
  [ rei (alts [ seqs [txt "try"; star space; txt "{"];
                seqs [txt "catch"; star space; txt "("];
                txt "except:"; txt "rescue"; txt "finally"; txt "throw"; txt "raise" ]) ].

Definition secureHeadersPatterns : list RegExp :=
  [ rei (words ["content-security-policy"; "csp"]);
    rei (words ["strict-transport-security"; "hsts"]);
    rei (txt "x-content-type-options");
    rei (txt "x-frame-options");
    rei (txt "x-xss-protection");
    rei (txt "helmet") ].

(** The class of the three quote characters: single, double, backtick. *)
Definition anyQuote : regex :=
  Cls false (fun c => oneOf "'`" c || Ascii.eqb c dquote).

(** A quote, the group [([a-z0-9!@#$%^&*()]{8,})], a quote; [i] flag. *)
Definition secretLiteral : RegExp :=
  rei (seqs [ anyQuote;
              Grp 1 (atLeast 8 (Cls false (fun c =>
                       isLower c || isDigit c || oneOf "!@#$%^&*()" c)));
              anyQuote ]).

Definition hasApiEndpoints (request : str) : bool := anyTest apiEndpointPatterns request.
Definition hasCorsConfig (request : str) : bool := anyTest corsPatterns request.
Definition permissiveCors (request : str) : bool :=
  test wildcardPattern request && test (rei (txt "access-control-allow-origin")) request.
Definition hasAuth (request : str) : bool := anyTest authPatterns request.
Definition hasValidation (request : str) : bool := anyTest validationPatterns request.
Definition hasUserInput (request : str) : bool := anyTest inputPatterns request.
Definition hasSensitiveData (request : str) : bool := anyTest sensitiveDataPatterns request.
Definition hasEncryption (request : str) : bool := anyTest encryptionPatterns request.
Definition hasLogging (request : str) : bool := anyTest loggingPatterns request.
Definition sensitiveLoggingRisk (request : str) : bool :=
  test sensitiveThenLogging request || test loggingThenSensitive request.
Definition hasErrorHandling (request : str) : bool := anyTest errorHandlingPatterns request.
Definition hasSecureHeaders (request : str) : bool := anyTest secureHeadersPatterns request.

(** The raw-input markers shared by the SQL and XSS checks. *)
Definition rawInput (request : str) : bool :=
  lc request "$_" || lc request "req.param" || lc request "req.body" ||
  lc request "req.query" || lc request "input" || lc request "user_input".

(** *** The assignments made to [riskLevel] *)

(** [riskLevel = riskLevel === 'Low' ? 'Medium' : riskLevel] *)
Definition mediumIfLow (l : RiskLevel) : RiskLevel :=
  match l with Low => Medium | _ => l end.
(** [riskLevel = riskLevel === 'Low' ? 'Medium' : 'High'] *)
Definition mediumElseHigh (l : RiskLevel) : RiskLevel :=
  match l with Low => Medium | _ => High end.
(** [riskLevel = riskLevel === 'Low' ? 'High' : 'Critical'] *)
Definition highElseCritical (l : RiskLevel) : RiskLevel :=
  match l with Low => High | _ => Critical end.
(** [riskLevel = riskLevel === 'Low' ? 'High' : riskLevel] *)
Definition highIfLow (l : RiskLevel) : RiskLevel :=
  match l with Low => High | _ => l end.
(** [riskLevel = riskLevel === 'High' ? 'Critical' : 'High'] *)
Definition criticalIfHigh (l : RiskLevel) : RiskLevel :=
  match l with High => Critical | _ => High end.
(** [riskLevel = 'High'], [riskLevel = 'Critical'] *)
Definition force (x : RiskLevel) (l : RiskLevel) : RiskLevel := x.

(** *** Detectors

    One detector per guarded block of the function: the guard, the
    assignment to [riskLevel], and what the block pushes on [threats] and
    [recommendations].  Guards and pushes read the request only. *)
Record detector := mkDetector
  { fires : str -> bool;
    raise : RiskLevel -> RiskLevel;
    threat : str -> list string;
    advice : str -> list string }.

Definition always {A : Type} (x : A) : str -> A := fun _ => x.

Definition corsMissing : detector :=
  mkDetector (fun r => hasApiEndpoints r && negb (hasCorsConfig r))
    mediumIfLow
    (always ["API endpoints detected without CORS protection"])
    (always ["Implement CORS policy to restrict API access to trusted domains"]).

Definition corsWildcard : detector :=
  mkDetector (fun r => hasApiEndpoints r && permissiveCors r)
    mediumIfLow
    (always ["Overly permissive CORS configuration (Access-Control-Allow-Origin: *)"])
    (always ["Restrict CORS to specific trusted origins rather than using wildcard *"]).

Definition authMissing : detector :=
  mkDetector (fun r => hasApiEndpoints r && (negb (hasAuth r) && hasApiEndpoints r))
    mediumElseHigh
    (always ["API endpoints may lack proper authentication"])
    (always ["Implement authentication for all API endpoints that access sensitive data"]).

Definition inputUnvalidated : detector :=
  mkDetector (fun r => hasUserInput r && negb (hasValidation r))
    mediumIfLow
    (always ["User input processing without obvious validation/sanitization"])
    (always ["Implement input validation and sanitization for all user-provided data"]).

Definition sensitiveUnprotected : detector :=
  mkDetector (fun r => hasSensitiveData r && negb (hasEncryption r))
    highElseCritical
    (always ["Handling sensitive data without obvious encryption/protection"])
    (always ["Implement encryption for sensitive data both at rest and in transit"]).

Definition sensitiveLogged : detector :=
  mkDetector (fun r => (hasSensitiveData r && hasLogging r) && sensitiveLoggingRisk r)
    mediumIfLow
    (always ["Potential logging of sensitive information"])
    (always ["Ensure sensitive data is redacted or excluded from logs"]).

Definition errorsUnhandled : detector :=
  mkDetector (fun r => hasApiEndpoints r && negb (hasErrorHandling r))
    mediumIfLow
    (always ["API endpoints without proper error handling detected"])
    (always ["Implement proper error handling to avoid exposing sensitive stack traces"]).

Definition sqlInjection : detector :=
  mkDetector
    (fun r => (lc r "select" || lc r "insert" || lc r "update" || lc r "delete")
              && rawInput r)
    (force High)
    (always ["Potential SQL injection vulnerability detected"])
    (always []).

Definition xss : detector :=
  mkDetector
    (fun r => (lc r "innerhtml" || lc r "document.write") && rawInput r)
    criticalIfHigh
    (always ["Potential Cross-site Scripting (XSS) vulnerability detected"])
    (always []).

Definition headersMissing : detector :=
  mkDetector
    (fun r => (hasApiEndpoints r || includes r (lit "http") || includes r (lit "express"))
              && negb (hasSecureHeaders r))
    mediumIfLow
    (always ["Security headers may be missing from HTTP responses"])
    (always ["Implement security headers (CSP, HSTS, etc.) or use middleware like helmet.js"]).

Definition hardcodedSecret : detector :=
  mkDetector
    (fun r => (lc r "password" || lc r "apikey" || lc r "secret" || lc r "token" ||
               lc r "pwd" || lc r "auth")
              && test secretLiteral (toLowerCase r))
    mediumIfLow
    (always ["Potential hardcoded credentials or secrets detected"])
    (always []).

Definition idor : detector :=
  mkDetector
    (fun r => lc r "id" &&
              (lc r "findbyid" || lc r "getbyid" || lc r "find_by_id" || lc r "get_by_id"))
    mediumIfLow
    (always ["Potential Insecure Direct Object Reference (IDOR) vulnerability"])
    (always []).

Definition commandInjection : detector :=
  mkDetector
    (fun r => (lc r "exec(" || lc r "spawn(" || lc r "system(" || lc r "eval(" ||
               lc r "command(" || lc r "process::command" || lc r "shell(" ||
               lc r "std::process")
              && (lc r "$_" || lc r "req.param" || lc r "req.body" || lc r "req.query" ||
                  lc r "args" || lc r "input" || lc r "user_input" || lc r "var" ||
                  lc r "param"))
    (force Critical)
    (always ["Potential command injection vulnerability detected"])
    (always []).

Definition isLang (l : Language) (r : str) : bool :=
  match detectLanguage r, l with
  | rust, rust | javascript, javascript | python, python => true
  | unknown, unknown | java, java | c_cpp, c_cpp => true
  | _, _ => false
  end.

Definition rustUnsafe : detector :=
  mkDetector (fun r => isLang rust r && (lc r "unsafe " || lc r "unsafe{"))
    highElseCritical
    (always ["Use of unsafe Rust code detected - potential memory safety issues"])
    (always []).

Definition rustRawPointers : detector :=
  mkDetector (fun r => isLang rust r && (lc r "*mut " || lc r "*const "))
    mediumIfLow
    (always ["Use of raw pointers in Rust - potential memory safety issues"])
    (always []).

Definition rustFfi : detector :=
  mkDetector
    (fun r => isLang rust r &&
              (includes (toLowerCase r) (lit "extern " ++ dquote :: lit "c" ++ [dquote])
               || lc r "#[no_mangle]"))
    mediumIfLow
    (always ["Foreign Function Interface (FFI) usage detected - potential safety issues"])
    (always []).

Definition rustUnwrap : detector :=
  mkDetector (fun r => isLang rust r && (lc r ".unwrap()" || lc r "panic!"))
    mediumIfLow
    (always ["Unchecked result/option usage with unwrap() or panic! - potential runtime failures"])
    (always []).

Definition jsEval : detector :=
  mkDetector (fun r => isLang javascript r && (lc r "eval(" || lc r "new function("))
    highIfLow
    (always ["Use of eval() or dynamic function creation - security risk"])
    (always []).

Definition jsCookie : detector :=
  mkDetector (fun r => isLang javascript r && lc r "document.cookie")
    mediumIfLow
    (always ["Direct cookie manipulation - potential cookie security issues"])
    (always []).

(** [frontendSecurityPatterns], each with its [source]. *)
Definition frontendSecurityPatterns : list (string * RegExp) :=
  [ ("innerhtml|outerhtml", rei (words ["innerhtml"; "outerhtml"]));
    ("localstorage|sessionstorage", rei (words ["localstorage"; "sessionstorage"]));
    ("postmessage", rei (txt "postmessage")) ].

(** The body of the loop over [frontendSecurityPatterns] for one pattern:
    the pushes are chosen by [pattern.source.includes], the assignment to
    [riskLevel] follows whenever the pattern matched. *)
Definition frontendNotes (source : string) (r : str) : list string * list string :=
  if includes (lit source) (lit "innerhtml") then
    (["Using innerHTML without proper sanitization - potential XSS risk"],
     ["Use textContent instead of innerHTML or sanitize HTML content"])
  else if includes (lit source) (lit "localstorage") then
    if hasSensitiveData r then
      (["Potential storage of sensitive data in localStorage/sessionStorage"],
       ["Avoid storing sensitive data in browser storage mechanisms"])
    else ([], [])
  else if includes (lit source) (lit "postmessage") then
    if negb (lc r "origin") then
      (["Using postMessage without origin validation"],
       ["Always validate origin when receiving postMessage data"])
    else ([], [])
  else ([], []).

Definition frontend (p : string * RegExp) : detector :=
  mkDetector (fun r => isLang javascript r && test (snd p) (toLowerCase r))
    mediumIfLow
    (fun r => fst (frontendNotes (fst p) r))
    (fun r => snd (frontendNotes (fst p) r)).

Definition pyDeserialize : detector :=
  mkDetector (fun r => isLang python r && (lc r "pickle.loads" || lc r "marshal.loads"))
    (force High)
    (always ["Use of unsafe deserialization (pickle/marshal) - security risk"])
    (always []).

Definition pyDynamicImport : detector :=
  mkDetector (fun r => isLang python r && (lc r "__import__" || lc r "importlib"))
    mediumIfLow
    (always ["Dynamic imports - potential code injection vector"])
    (always []).

Definition pyCsrf : detector :=
  mkDetector
    (fun r => isLang python r && ((lc r "django" || lc r "flask") && negb (lc r "csrf")))
    mediumIfLow
    (always ["Web framework detected without obvious CSRF protection"])
    (always ["Ensure CSRF protection is enabled in your web framework"]).

Definition pyDebug : detector :=
  mkDetector
    (fun r => isLang python r &&
              ((lc r "django" || lc r "flask") && (lc r "debug" && lc r "true")))
    mediumIfLow
    (always ["Debug mode may be enabled in a web application"])
    (always ["Disable debug mode in production environments"]).

(** The detectors in the order of the source text. *)
Definition detectors : list detector :=
  [ corsMissing; corsWildcard; authMissing; inputUnvalidated;
    sensitiveUnprotected; sensitiveLogged; errorsUnhandled;
    sqlInjection; xss; headersMissing; hardcodedSecret; idor; commandInjection;
    rustUnsafe; rustRawPointers; rustFfi; rustUnwrap;
    jsEval; jsCookie ]
  ++ map frontend frontendSecurityPatterns
  ++ [ pyDeserialize; pyDynamicImport; pyCsrf; pyDebug ].

(** The three variables the detectors update. *)
Record state := mkState
  { level : RiskLevel; found : list string; advised : list string }.

Definition initial : state := mkState Low [] [].

Definition step (request : str) (st : state) (d : detector) : state :=
  if fires d request then
    mkState (raise d (level st))
            (found st ++ threat d request)
            (advised st ++ advice d request)
  else st.

(** Running a list of detectors in the order given. *)
Definition run (ds : list detector) (request : str) : state :=
  fold_left (step request) ds initial.

(** [if (threats.includes(t)) recommendations.push(r)] *)
Definition recommendFor (t r : string) (st : state) : state :=
  if existsb (String.eqb t) (found st)
  then mkState (level st) (found st) (advised st ++ [r])
  else st.

Definition followUps : list (string * string) :=
  [ ("Potential SQL injection vulnerability detected",
     "Use parameterized queries or an ORM instead of string concatenation");
    ("Potential Cross-site Scripting (XSS) vulnerability detected",
     "Use content security policy (CSP) and escape output before rendering");
    ("Potential hardcoded credentials or secrets detected",
     "Store sensitive information in environment variables or a secure vault");
    ("Potential Insecure Direct Object Reference (IDOR) vulnerability",
     "Implement proper access control checks before serving data");
    ("Potential command injection vulnerability detected",
     "Avoid using exec/eval with user input; use allowlists for commands if necessary");
    ("Use of unsafe Rust code detected - potential memory safety issues",
     "Minimize unsafe blocks and ensure they are properly documented and reviewed");
    ("Use of raw pointers in Rust - potential memory safety issues",
     "Prefer safe abstractions like references and smart pointers over raw pointers");
    ("Foreign Function Interface (FFI) usage detected - potential safety issues",
     "Ensure all FFI code is carefully reviewed and properly isolated");
    ("Unchecked result/option usage with unwrap() or panic! - potential runtime failures",
     "Replace .unwrap() with proper error handling using match, if let, or ?") ].

Definition noThreat : string := "No obvious security vulnerabilities detected".
Definition genericAdvice : string :=
  "Follow security best practices for your framework/language".

(** [if (a.length === 0) a.push(x)] *)
Definition orDefault (x : string) (a : list string) : list string :=
  match a with [] => [x] | _ :: _ => a end.

(** The end of the function, after the detectors. *)
Definition finish (request : str) (st : state) : SecurityReport :=
  let st := fold_left (fun s p => recommendFor (fst p) (snd p) s) followUps st in
  mkReport (level st)
           (orDefault noThreat (found st))
           (orDefault genericAdvice (advised st))
           (confidence request).

(** The analysis with the detectors taken in a given order. *)
Definition analysisWith (ds : list detector) (request : str) : SecurityReport :=
  finish request (run ds request).

Definition localSecurityAnalysis (request : str) : SecurityReport :=
  analysisWith detectors request.

(** The successive values of [riskLevel] while the detectors run. *)
Fixpoint trace (request : str) (l : RiskLevel) (ds : list detector) : list RiskLevel :=
  match ds with
  | [] => [l]
  | d :: ds' => l :: trace request (if fires d request then raise d l else l) ds'
  end.

Definition rank (l : RiskLevel) : nat :=
  match l with Low => 0 | Medium => 1 | High => 2 | Critical => 3 end.

Definition maxLevel (a b : RiskLevel) : RiskLevel :=
  if rank a <? rank b then b else a.

Definition level_eqb (a b : RiskLevel) : bool := rank a =? rank b.

(** A detector whose assignment is [max(current, proposed)] for a fixed
    proposed level. *)
Definition maxStyle (d : detector) : bool :=
  forallb (fun l => level_eqb (raise d l) (maxLevel l (raise d Low)))
          [Low; Medium; High; Critical].

(** Every detector of [ds] that fires on [request] is of that kind. *)
Definition firedAreMaxStyle (request : str) (ds : list detector) : bool :=
  forallb (fun d => implb (fires d request) (maxStyle d)) ds.

(** The greatest level proposed from [Low] by the detectors that fire. *)
Fixpoint proposed (request : str) (ds : list detector) : RiskLevel :=
  match ds with
  | [] => Low
  | d :: ds' =>
      if fires d request then maxLevel (raise d Low) (proposed request ds')
      else proposed request ds'
  end.

End Security.

(* ------------------------------------------------------------------ *)
(** ** The eco rule engine: [AIClient.localEcoAnalysis] *)

Module Eco.

Local Open Scope Z_scope.

(** The values taken by the local variable [language]. *)
Inductive Language : Type :=
| Unknown | Rust | Java | JavaScriptTypeScript | Python | CCpp.

Definition languageName (l : Language) : string :=
  match l with
  | Unknown => "unknown"
  | Rust => "Rust"
  | Java => "Java"
  | JavaScriptTypeScript => "JavaScript/TypeScript"
  | Python => "Python"
  | CCpp => "C/C++"
  end.

(** [/console\.log|function\s*\(|const\s+|let\s+|var\s+/] *)
Definition jsSignature : RegExp :=
  re (alts [ txt "console.log";
             seqs [txt "function"; star space; txt "("];
             Seq (txt "const") (plus space);
             Seq (txt "let") (plus space);
             Seq (txt "var") (plus space) ]).

(** The language cascade at the head of the function. *)
Definition detectLanguage (code : str) : Language :=
  if lc code "fn main" &&
     (lc code "impl" || lc code "struct" || lc code "use std")
  then Rust
  else if lc code "public static void main" then Java
  else if test jsSignature (toLowerCase code) then JavaScriptTypeScript
  else if lc code "def " && (lc code "import " || lc code "class ")
  then Python
  else if lc code "#include" then CCpp
  else Unknown.

Definition initialScore (l : Language) : Z :=
  match l with
  | Rust | CCpp => 75
  | Python => 65
  | JavaScriptTypeScript => 68
  | Java => 72
  | Unknown => 70
  end.

(** [n > k] on a count. *)
Definition more (n k : nat) : bool := (k <? n)%nat.

(** A number inside a template literal. *)
Definition show (n : nat) : string := NilEmpty.string_of_uint (Nat.to_uint n).

(** [/\/\/.*|\/\*[\s\S]*?\*\/|#.*/g]: line comments, block comments, hash
    comments. *)
Definition commentPattern : RegExp :=
  re (alts [ Seq (txt "//") (star dot);
             seqs [txt "/*"; lazyStar anyChar; txt "*/"];
             Seq (txt "#") (star dot) ]).

Definition lines (code : str) : list str := splitChar newline code.

Definition cleanedLines (code : str) : list str :=
  filter (fun line => more (length line) 0)
         (map (fun line => removeAll commentPattern (trim line)) (lines code)).

(** The loop over the windows of three cleaned lines: [l] is what is left
    of [cleanedLines] from index [i] on, [lineSet] the blocks seen. *)
Fixpoint countRepeats (l : list str) (lineSet : list str) (redundancyCount : nat) : nat :=
  match l with
  | a :: ((b :: c :: _) as l') =>
      let block := join [newline] [a; b; c] in
      if has lineSet block
      then countRepeats l' lineSet (S redundancyCount)
      else countRepeats l' (block :: lineSet) redundancyCount
  | _ => redundancyCount
  end.

Definition redundancyCount (code : str) : nat := countRepeats (cleanedLines code) [] 0.

Definition functionPatterns : list RegExp :=
  [ re (seqs [txt "function"; plus space; Grp 1 (plus word)]);   (* /function\s+(\w+)/g *)
    re (seqs [txt "def"; plus space; Grp 1 (plus word)]);        (* /def\s+(\w+)/g *)
    (* /public|private|protected.*?\s+(\w+)\s*\(/g *)
    re (alts [ txt "public"; txt "private";
               seqs [txt "protected"; lazyStar dot; plus space; Grp 1 (plus word);
                     star space; txt "("] ]);
    re (seqs [txt "fn"; plus space; Grp 1 (plus word)]) ].       (* /fn\s+(\w+)/g *)

(** The two sets of the duplicate-name scan. *)
Definition nameSets := (list str * list str)%type.

(** The body of the inner loop for one match: [match[1]] is skipped when it
    is undefined or empty. *)
Definition recordName (sets : nameSets) (mt : Match) : nameSets :=
  let '(functionNames, duplicateFunctions) := sets in
  match capture 1 (groups mt) with
  | Some ((_ :: _) as name) =>
      if has functionNames name then
        (functionNames,
         if has duplicateFunctions name then duplicateFunctions
         else name :: duplicateFunctions)
      else (name :: functionNames, duplicateFunctions)
  | _ => sets
  end.

Definition duplicateFunctions (code : str) : list str :=
  snd (fold_left (fun sets pattern => fold_left recordName (matchAll pattern code) sets)
                 functionPatterns ([], [])).

Definition aiPatterns : list RegExp :=
  [ rei (words ["openai"; "gpt"; "llm"; "huggingface"; "ai client"; "machine learning";
                "neural network"; "transformer"]);
    rei (words ["tensorflow"; "pytorch"; "keras"; "model.predict"; "embedding"; "token";
                "bert"; "stable diffusion"]) ].

Definition hasAI (code : str) : bool := anyTest aiPatterns code.

(** [/api[\s-_]?key|token|secret|endpoint|openai\.com|api\.anthropic/i] *)
Definition remoteApiPattern : RegExp :=
  rei (alts [ seqs [txt "api"; opt (Cls false (fun c => isSpace c || oneOf "-_" c)); txt "key"];
              txt "token"; txt "secret"; txt "endpoint"; txt "openai.com";
              txt "api.anthropic" ]).

(** [/for\s*\([^)]*\)|while\s*\([^)]*\)|forEach|map|LOOP|do\s*{/g] *)
Definition loopPattern : RegExp :=
  re (alts [ seqs [txt "for"; star space; txt "("; star (notChar ")"); txt ")"];
             seqs [txt "while"; star space; txt "("; star (notChar ")"); txt ")"];
             txt "forEach"; txt "map"; txt "LOOP";
             seqs [txt "do"; star space; txt "{"] ]).

(** [/for\s*\(|while\s*\(|\{\s*$/] *)
Definition blockStartPattern : RegExp :=
  re (alts [ seqs [txt "for"; star space; txt "("];
             seqs [txt "while"; star space; txt "("];
             seqs [txt "{"; star space; Eol] ]).

Definition forOrWhile : RegExp := re (words ["for"; "while"]).   (* /for|while/ *)

(** The loop over [lines] that counts nested loops; [blockStarts] is the
    stack, its top at the head. *)
Fixpoint countNested (ls : list str) (blockStarts : list str) (nestedLoopCount : nat) : nat :=
  match ls with
  | [] => nestedLoopCount
  | line :: ls' =>
      let blockStarts :=
        if test blockStartPattern line then line :: blockStarts
        else if includes line (lit "}") then tl blockStarts
        else blockStarts in
      let nestedLoopCount :=
        if more (length (filter (test forOrWhile) blockStarts)) 1
        then S nestedLoopCount else nestedLoopCount in
      countNested ls' blockStarts nestedLoopCount
  end.

Definition nestedLoopCount (code : str) : nat := countNested (lines code) [] 0.

(** [/KEYWORD\s+(\w+)[^OPEN]*OPEN[\s\S]*\1\s*\(/]: a definition whose name
    occurs again, followed by a parenthesis. *)
Definition recursionPattern (keyword opening : string) : RegExp :=
  re (seqs [ txt keyword; plus space; Grp 1 (plus word); star (notChar opening);
             txt opening; star anyChar; Ref 1; star space; txt "(" ]).

Definition hasRecursion (code : str) : bool :=
  test (recursionPattern "function" "{") code ||
  test (recursionPattern "def" ":") code ||
  test (recursionPattern "fn" "{") code.

(** The three variables the rules update. *)
Record acc := mkAcc
  { baseScore : Z; issues : list string; suggestions : list string }.

(** A guarded block that pushes on [issues] and [suggestions] and adds
    [delta] to [baseScore]. *)
Definition rule (guard : bool) (issue suggestion : list string) (delta : Z) (a : acc) : acc :=
  if guard then
    mkAcc (baseScore a + delta) (issues a ++ issue) (suggestions a ++ suggestion)
  else a.

Definition redundancyRule (code : str) : acc -> acc :=
  let n := redundancyCount code in
  rule (more n 0)
    ["Detected " ++ show n ++ " blocks of potentially redundant code"]%string
    ["Extract repeated code blocks into reusable functions or components"]
    (- Z.min 15 (Z.of_nat n * 3)).

Definition duplicateRule (code : str) : acc -> acc :=
  let size := length (duplicateFunctions code) in
  rule (more size 0)
    ["Found " ++ show size ++ " potentially duplicated function names"]%string
    ["Rename or consolidate functions with similar names and purposes"]
    (- (Z.of_nat size * 2)).

Definition aiRule (code : str) (a : acc) : acc :=
  if hasAI code then
    let aiEfficient := test (rei (words ["cache"; "memoize"; "throttle"; "batch"])) code in
    let a :=
      if aiEfficient then
        rule true [] ["Good: Found caching or batching for AI operations"] 5 a
      else
        rule true ["AI integration detected without obvious efficiency measures"]
          ["Implement caching, batching, or throttling for AI API calls"] (-8) a in
    let localModelUsage :=
      test (rei (words ["local_model"; "onnx"; "tflite"; "quantized"; "edge"])) code in
    if localModelUsage then
      rule true []
        ["Good: Using local/edge AI models which can reduce network overhead"] 3 a
    else
      rule (test remoteApiPattern code)
        ["Using remote AI APIs which can increase carbon footprint"]
        ["Consider using smaller, local models for less intensive tasks"] (-5) a
  else a.

Definition nestedRule (code : str) : acc -> acc :=
  let n := nestedLoopCount code in
  rule (more n 0)
    [show n ++ " nested loops detected (potential O(n" ++
     String (ascii_of_nat 178) ") or worse time complexity)"]%string
    ["Consider refactoring nested loops to reduce time complexity"] 0.

Definition recursionRule (code : str) : acc -> acc :=
  rule (hasRecursion code)
    ["Recursive function calls detected"]
    ["Ensure recursive functions have proper termination conditions"] 0.

Definition concatRule (code : str) : acc -> acc :=
  rule (more (matchCount (re (seqs [txt "+"; star space; Chr dquote])) code) 5)
    ["Multiple string concatenations found"]
    ["Use string templating or builder pattern for multiple concatenations"] 0.

Definition cryptoRule (code : str) : acc -> acc :=
  rule (test (rei (words ["crypto"; "hash"; "bcrypt"; "scrypt"; "mining"])) code)
    ["Potentially energy-intensive cryptographic operations detected"]
    ["Ensure cryptographic operations are used sparingly and efficiently"] (-7).

Definition mediaRule (code : str) : acc -> acc :=
  rule (test (rei (words ["image"; "video"; "audio"; "canvas"; "media"; "transcode";
                          "render"; "animation"])) code &&
        test (rei (words ["process"; "transform"; "filter"; "load"; "manipulation"])) code)
    ["Media processing detected - potentially high energy consumption"]
    ["Implement lazy loading and optimize media processing operations"] (-6).

(** [code.includes(w)] *)
Definition has_ (code : str) (w : string) : bool := includes code (lit w).

Definition javascriptRules (code : str) (a : acc) : acc :=
  let a :=
    rule (has_ code "document.querySelectorAll" &&
          test (re (words ["for"; "forEach"; "map"])) code)
      ["DOM collection iteration pattern detected"]
      ["Consider using more efficient DOM traversal methods"] 0 a in
  let domOperations :=
    matchCount (re (words ["document.createElement"; "appendChild"; "innerHTML";
                           "getElementById"; "querySelector"])) code in
  let a :=
    rule (more domOperations 10)
      ["High number of DOM operations detected"]
      ["Batch DOM updates or consider using a virtual DOM approach"] (-8) a in
  if has_ code "React" || has_ code "useState" then
    let stateUpdates := matchCount (re (words ["setState"; "useState"; "useReducer"])) code in
    let memoization := matchCount (re (words ["useMemo"; "React.memo"; "useCallback"])) code in
    rule (more stateUpdates 5 && (memoization =? 0)%nat)
      ["Multiple state updates without memoization could cause excessive re-renders"]
      ["Use React.memo, useMemo, or useCallback to prevent unnecessary re-renders"] (-5) a
  else a.

(** [/for\s+.*\s+in\s+.*:\s*\n\s*.*\.append/] *)
Definition appendInLoop : RegExp :=
  re (seqs [ txt "for"; plus space; star dot; plus space; txt "in"; plus space;
             star dot; txt ":"; star space; Chr newline; star space; star dot;
             txt ".append" ]).

Definition pythonRules (code : str) (a : acc) : acc :=
  let a :=
    rule (has_ code "+= [" || test appendInLoop code)
      ["Inefficient list concatenation pattern detected"]
      ["Use list comprehensions or extend() instead of append in loops"] (-5) a in
  let a :=
    rule (has_ code "threading" && has_ code "while True")
      ["Potential CPU-bound thread blocking due to GIL"]
      ["Consider using multiprocessing instead of threading for CPU-bound tasks"] (-10) a in
  if has_ code "pandas" || has_ code "pd." then
    (* /apply|iterrows|for.*row in/i *)
    let inefficientPandas :=
      test (rei (alts [txt "apply"; txt "iterrows";
                       seqs [txt "for"; star dot; txt "row in"]])) code in
    rule inefficientPandas
      ["Inefficient pandas operations detected (iterative processing)"]
      ["Use vectorized operations instead of iterative row processing"] (-7) a
  else a.

Definition javaRules (code : str) (a : acc) : acc :=
  let a :=
    (* /String.*\+=/g *)
    rule (more (matchCount (re (seqs [txt "String"; star dot; txt "+="])) code) 3 &&
          negb (has_ code "StringBuilder"))
      ["Inefficient String concatenation with += operator"]
      ["Use StringBuilder for string concatenation in loops"] (-7) a in
  let newObjects := matchCount (re (seqs [txt "new"; plus space; plus word])) code in
  let a :=
    rule (more newObjects 20)
      ["High rate of object creation detected"]
      ["Consider object pooling or reuse patterns"] (-5) a in
  if has_ code "Collection" || has_ code "List<" then
    let usesStreams := has_ code "stream()" in
    (* /for\s*\([^)]*:/ *)
    rule (negb usesStreams &&
          test (re (seqs [txt "for"; star space; txt "("; star (notChar ")"); txt ":"])) code)
      []
      ["Consider using Stream API for more efficient collection processing"] (-3) a
  else a.

Definition rustRules (code : str) (a : acc) : acc :=
  let a :=
    rule (has_ code "to_string" && test forOrWhile code)
      ["Repeated to_string() calls in loops"]
      ["Use string references (&str) instead of String allocations where possible"] (-3) a in
  let a :=
    rule (more (matchCount (re (txt ".clone()")) code) 5)
      ["Multiple clone() calls detected - potential memory inefficiency"]
      ["Consider using references or move semantics to avoid cloning"] (-4) a in
  let a :=
    rule (negb (has_ code "unsafe") && has_ code "&mut ")
      [] ["Good use of Rust's memory safety features"] 5 a in
  if has_ code "async" && has_ code "await" then
    rule (negb (has_ code "join") && more (matchCount (re (txt ".await")) code) 3)
      ["Multiple sequential await operations could be parallelized"]
      ["Use join! macro to run async operations concurrently"] (-3) a
  else a.

Definition cppRules (code : str) (a : acc) : acc :=
  (* /malloc\(|new\s+\w+/g and /free\(|delete\s+/g *)
  let allocations :=
    matchCount (re (alts [txt "malloc("; seqs [txt "new"; plus space; plus word]])) code in
  let frees :=
    matchCount (re (alts [txt "free("; Seq (txt "delete") (plus space)])) code in
  let a :=
    rule (more allocations (frees + 2))
      ["Potential memory leak: more allocations than deallocations"]
      ["Ensure all allocated memory is properly freed"] (-15) a in
  (* /malloc\(\s*\w+\s*\*\s*sizeof/ *)
  rule (test (re (seqs [txt "malloc("; star space; plus word; star space; txt "*";
                        star space; txt "sizeof"])) code)
    ["Large buffer allocation detected"]
    ["Consider using dynamic data structures or memory-mapped files for large data"]
    (-5) a.

Definition languageRules (language : Language) (code : str) (a : acc) : acc :=
  match language with
  | JavaScriptTypeScript => javascriptRules code a
  | Python => pythonRules code a
  | Java => javaRules code a
  | Rust => rustRules code a
  | CCpp => cppRules code a
  | Unknown => a
  end.

Definition stringConcatRule (language : Language) (code : str) : acc -> acc :=
  rule (more (matchCount (re (txt "+=")) code) 5 &&
        test (re (words ["string"; "String"; "str"; "text"; "Text"])) code)
    ["Inefficient string concatenation detected"]
    [ match language with
      | JavaScriptTypeScript =>
          "Use array.join() or template literals instead of string concatenation"
      | Java => "Use StringBuilder instead of String concatenation in loops"
      | Python =>
          ("Use " ++ String dquote (String dquote
             ".join(list) instead of string += in loops"))%string
      | CCpp => "Use std::stringstream or std::string::append() instead of += operator"
      | _ => "Use string builder pattern for better memory efficiency"
      end ] 0.

(** Everything up to [let ecoScore = baseScore]. *)
Definition rules (code : str) : acc :=
  let language := detectLanguage code in
  let a := mkAcc (initialScore language) [] [] in
  let a := redundancyRule code a in
  let a := duplicateRule code a in
  let a := aiRule code a in
  let a := nestedRule code a in
  let a := recursionRule code a in
  let a := concatRule code a in
  let a := cryptoRule code a in
  let a := mediaRule code a in
  let a := languageRules language code a in
  stringConcatRule language code a.

Definition genericSuggestion (language : Language) : string :=
  match language with
  | JavaScriptTypeScript =>
      "Use modern JS features like array methods, async/await, and avoid jQuery DOM manipulation"
  | Python =>
      "Follow PEP 8 style guide and use list comprehensions, generators, and context managers"
  | Java => "Use Stream API, try-with-resources, and follow effective Java patterns"
  | CCpp => "Use RAII pattern, smart pointers, and prefer std algorithms over raw loops"
  | Rust => "Leverage Rust's ownership system and avoid unnecessary memory allocations"
  | Unknown => "Follow language-specific best practices for performance optimization"
  end.

Definition noIssue : string := "No obvious efficiency issues detected".

Record Details := mkDetails
  { codeSize : nat; lineCount : nat; loopCount : nat; issueCount : nat;
    language : string; redundancies : nat; aiIntegration : bool }.

Record EcoReport := mkEcoReport
  { ecoScore : Z; ecoIssues : list string; ecoSuggestions : list string;
    details : Details }.

Definition isNil {A : Type} (l : list A) : bool :=
  match l with [] => true | _ :: _ => false end.

(** The score before [Math.max(35, Math.min(95, ecoScore))], with the
    issues as they stand at that point. *)
Definition computed (code : str) : Z * list string * list string :=
  let a := rules code in
  let nested := nestedLoopCount code in
  let ecoScore := baseScore a in
  let ecoScore := ecoScore - Z.min 20 (Z.of_nat (length (issues a)) * 5) in
  let ecoScore :=
    if more nested 0 then ecoScore - Z.min 15 (Z.of_nat nested * 5) else ecoScore in
  let ecoScore := if 5000 <? Z.of_nat (length code) then ecoScore - 3 else ecoScore in
  let ecoScore := if 10000 <? Z.of_nat (length code) then ecoScore - 5 else ecoScore in
  if more (length (lines code)) 500 then
    (ecoScore - 5,
     issues a ++ ["Extremely large file detected (over 500 lines)"],
     suggestions a ++ ["Break down large files into smaller, more focused modules"])
  else (ecoScore, issues a, suggestions a).

Definition clamp (score : Z) : Z := Z.max 35 (Z.min 95 score).

Definition localEcoAnalysis (code : str) : EcoReport :=
  let language := detectLanguage code in
  let '(ecoScore, issues, suggestions) := computed code in
  let ecoScore := clamp ecoScore in
  let suggestions :=
    if isNil suggestions then [genericSuggestion language] else suggestions in
  let '(ecoScore, issues) :=
    if isNil issues then (ecoScore + 5, [noIssue]) else (ecoScore, issues) in
  mkEcoReport ecoScore issues suggestions
    (mkDetails (length code) (length (lines code))
       (matchCount loopPattern code) (length issues)
       (languageName language) (redundancyCount code) (hasAI code)).

End Eco.

(* ------------------------------------------------------------------ *)
(** ** The embedding generator: [AIClient.generateTextEmbedding] *)

Module Embedding.

Local Open Scope Q_scope.

(** A count as a number. *)
Definition num (n : nat) : Q := inject_Z (Z.of_nat n).

(** [x || 1] *)
Definition orOne (x : Q) : Q := if Qeq_bool x 0 then 1 else x.

(** [Math.max(n, 1)] on a count. *)
Definition atLeastOne (n : nat) : Q := num (Nat.max n 1).

Definition normalizeValue (value min max : Q) : Q :=
  2 * ((value - min) / orOne (max - min)) - 1.

(** [(text.match(re) || []).length] as a number. *)
Definition count (r : regex) (text : str) : Q := num (matchCount (re r) text).

Definition nonEmpty (w : str) : bool := (0 <? length w)%nat.

(** [text.split(/\s+/).filter((w) => w.length > 0)] *)
Definition wordsOf (text : str) : list str :=
  filter nonEmpty (split (re (plus space)) text).

Definition charCount (text : str) : nat := length text.
Definition wordCount (text : str) : nat := length (wordsOf text).
Definition lineCount (text : str) : nat := length (splitChar newline text).

Definition upperLetter : regex := Cls false isUpper.            (* [A-Z] *)
Definition lowerLetter : regex := Cls false isLower.            (* [a-z] *)
Definition special : regex := Cls true (fun c => isWord c || isSpace c).  (* [^\w\s] *)

Definition wordLengthAvg (text : str) : Q :=
  if (0 <? wordCount text)%nat then
    fold_left (fun sum word => sum + num (length word)) (wordsOf text) 0
    / num (wordCount text)
  else 0.

(** [text.split(/[.!?]/).filter((s) => s.trim().length > 0).length] *)
Definition sentenceCount (text : str) : nat :=
  length (filter (fun s => nonEmpty (trim s)) (split (re (anyOf ".!?")) text)).

(** [embedding[0]] to [embedding[14]] *)
Definition statistics (text : str) : list Q :=
  [ normalizeValue (num (charCount text)) 0 10000;
    normalizeValue (num (wordCount text)) 0 2000;
    normalizeValue (num (lineCount text)) 0 500;
    normalizeValue (count upperLetter text / atLeastOne (charCount text)) 0 1;
    normalizeValue (count digit text / atLeastOne (charCount text)) 0 1;
    normalizeValue (count special text / atLeastOne (charCount text)) 0 1;
    normalizeValue (wordLengthAvg text) 1 20;
    normalizeValue (num (sentenceCount text) / atLeastOne (lineCount text)) 0 10;
    normalizeValue (count (anyOf "{}") text / orOne (num (lineCount text))) 0 2;
    normalizeValue (count (anyOf "();") text / orOne (num (lineCount text))) 0 5;
    normalizeValue (count (anyOf ".!?") text / orOne (num (wordCount text))) 0 10;
    normalizeValue (count (plus space) text / orOne (num (length text))) 0 5;
    normalizeValue (count lowerLetter text / orOne (num (length text))) 0 1;
    normalizeValue (count upperLetter text / orOne (num (length text))) 0 1;
    normalizeValue (count digit text / orOne (num (length text))) 0 1 ].

(** [\([^)]*\)]: a parenthesised argument list. *)
Definition parens : regex := seqs [txt "("; star (notChar ")"); txt ")"].

(** The six language signatures, for JS, Python, Java, Rust, C++ and
    HTML/JSX. *)
Definition signaturePatterns : list RegExp :=
  [ (* /function\s*\([^)]*\)\s*{|const |let |var |=>/ *)
    re (alts [ seqs [txt "function"; star space; parens; star space; txt "{"];
               txt "const "; txt "let "; txt "var "; txt "=>" ]);
    (* /def\s+\w+\s*\([^)]*\):|import\s+\w+|class\s+\w+:/ *)
    re (alts [ seqs [txt "def"; plus space; plus word; star space; parens; txt ":"];
               seqs [txt "import"; plus space; plus word];
               seqs [txt "class"; plus space; plus word; txt ":"] ]);
    (* /public\s+\w+\s*\([^)]*\)\s*{|extends |implements |@Override/ *)
    re (alts [ seqs [txt "public"; plus space; plus word; star space; parens;
                     star space; txt "{"];
               txt "extends "; txt "implements "; txt "@Override" ]);
    (* /fn\s+\w+|impl|pub\s+struct|use\s+std|::\w+/ *)
    re (alts [ seqs [txt "fn"; plus space; plus word]; txt "impl";
               seqs [txt "pub"; plus space; txt "struct"];
               seqs [txt "use"; plus space; txt "std"];
               seqs [txt "::"; plus word] ]);
    (* /#include\s*<|void\s+\w+\s*\(|int\s+\w+\s*=|std::|template\s*</ *)
    re (alts [ seqs [txt "#include"; star space; txt "<"];
               seqs [txt "void"; plus space; plus word; star space; txt "("];
               seqs [txt "int"; plus space; plus word; star space; txt "="];
               txt "std::";
               seqs [txt "template"; star space; txt "<"] ]);
    (* /<!DOCTYPE html>|<html>|<div|<span|className=|<\// *)
    re (words ["<!DOCTYPE html>"; "<html>"; "<div"; "<span"; "className="; "</"]) ].

(** [re.test(text) ? 0.9 : -0.5] *)
Definition signature (text : str) (p : RegExp) : Q :=
  if test p text then 0.9 else -0.5.

(** [embedding[15]] to [embedding[20]] *)
Definition signatures (text : str) : list Q := map (signature text) signaturePatterns.

(** [embedding[21]] to [embedding[31]]: [rnd k] is what the k-th call of
    [Math.random()] returns. *)
Definition noise (rnd : nat -> Q) : list Q :=
  map (fun k => (rnd k * 2 - 1) * 0.1) (seq 0 11).

(** [embedding[i] = v] inside the bounds of the array. *)
Fixpoint assign (i : nat) (v : Q) (embedding : list Q) : list Q :=
  match embedding, i with
  | [], _ => []
  | _ :: e, O => v :: e
  | x :: e, S i' => x :: assign i' v e
  end.

(** The array before it is normalised: [Array(32).fill(0)], then the
    assignments to the indices 0 to 31 in turn. *)
Definition rawEmbedding (text : str) (rnd : nat -> Q) : list Q :=
  fold_left (fun embedding iv => assign (fst iv) (snd iv) embedding)
            (combine (seq 0 32) (statistics text ++ signatures text ++ noise rnd))
            (repeat 0 32%nat).

Local Open Scope R_scope.

(** The sum of the squares of the entries. *)
Fixpoint sumsq (v : list R) : R :=
  match v with
  | [] => 0
  | x :: v' => x * x + sumsq v'
  end.

(** [Math.sqrt(embedding.reduce((sum, val) => sum + val * val, 0))] *)
Definition magnitude (embedding : list R) : R :=
  sqrt (fold_left (fun sum val => sum + val * val) embedding 0).

(** [embedding.map((val) => val / (magnitude || 1))] *)
Definition normalise (embedding : list R) : list R :=
  let magnitude := magnitude embedding in
  map (fun val => val / (if Req_dec_T magnitude 0 then 1 else magnitude)) embedding.

Definition generateTextEmbedding (text : str) (rnd : nat -> Q) : list R :=
  normalise (map Q2R (rawEmbedding text rnd)).

End Embedding.

(* ------------------------------------------------------------------ *)
(** ** The similarity index: [VectorStore] *)

Module VectorStore.

Import Embedding.

Local Open Scope R_scope.

Record file := mkFile
  { path : str; content : str; embedding : option (list R) }.

Record result := mkResult
  { resultPath : str; resultContent : str; score : R }.

(** The private field [files]. *)
Definition store := list file.

Definition addFile (path content : str) (rnd : nat -> Q) (files : store) : store :=
  files ++ [mkFile path content (Some (generateTextEmbedding content rnd))].

Definition clear (files : store) : store := [].

(** The loop of [calculateCosineSimilarity] over the indices of [vec1]:
    the accumulators are [dotProduct], [mag1], [mag2]. *)
Fixpoint accumulate (vec1 vec2 : list R) (acc : R * R * R) : R * R * R :=
  match vec1, vec2 with
  | a :: vec1', b :: vec2' =>
      let '(dotProduct, mag1, mag2) := acc in
      accumulate vec1' vec2' (dotProduct + a * b, mag1 + a * a, mag2 + b * b)
  | _, _ => acc
  end.

Definition calculateCosineSimilarity (vec1 vec2 : list R) : R :=
  if negb (length vec1 =? length vec2)%nat then 0
  else
    let '(dotProduct, mag1, mag2) := accumulate vec1 vec2 (0, 0, 0) in
    let mag1 := sqrt mag1 in
    let mag2 := sqrt mag2 in
    let denominator := mag1 * mag2 in
    if Req_dec_T denominator 0 then 0 else dotProduct / denominator.

Section Sort.

Variable A : Type.
(** The comparator: negative when its first argument sorts first. *)
Variable compareFn : A -> A -> R.

Fixpoint insert (x : A) (l : list A) : list A :=
  match l with
  | [] => [x]
  | y :: l' => if Rlt_dec 0 (compareFn x y) then y :: insert x l' else x :: l
  end.

(** [a.sort(compareFn)]: the sort is stable, an element moves behind
    exactly the later elements the comparator puts strictly before it. *)
Fixpoint sort (l : list A) : list A :=
  match l with
  | [] => []
  | x :: l' => insert x (sort l')
  end.

End Sort.

(** [a.slice(0, limit)] for an integer [limit]: a negative [limit] counts
    from the end. *)
Definition slice0 {A : Type} (limit : Z) (a : list A) : list A :=
  let len := Z.of_nat (length a) in
  let final := if (limit <? 0)%Z then Z.max (len + limit) 0 else Z.min limit len in
  firstn (Z.to_nat final) a.

(** The comparator of [search]: [(a, b) => b.score - a.score]. *)
Definition byScore (a b : result) : R := score b - score a.

(** [r1] may stand before [r2] in a list of non-increasing scores. *)
Definition before_ (r1 r2 : result) : Prop := score r2 <= score r1.

(** The results whose score is [v]. *)
Definition sameScore (v : R) (r : result) : bool :=
  if Req_dec_T (score r) v then true else false.

(** The dot product of two arrays of the same length. *)
Fixpoint dot (a b : list R) : R :=
  match a, b with
  | x :: a', y :: b' => x * y + dot a' b'
  | _, _ => 0
  end.

(** [file.embedding || []] *)
Definition embeddingOf (f : file) : list R :=
  match embedding f with Some e => e | None => [] end.

(** The scores of all files, in the order of insertion. *)
Definition scored (queryEmbedding : list R) (files : store) : list result :=
  map (fun f => mkResult (path f) (content f)
                  (calculateCosineSimilarity queryEmbedding (embeddingOf f)))
      files.

Definition search (files : store) (query : str) (limit : Z) (rnd : nat -> Q) : list result :=
  match files with
  | [] => []
  | _ :: _ =>
      let queryEmbedding := generateTextEmbedding query rnd in
      let results := scored queryEmbedding files in
      slice0 limit (sort byScore results)
  end.

End VectorStore.

(* ------------------------------------------------------------------ *)
(** ** Further string operations of the runtime *)

Module Runtime.

(** [s.indexOf(c)] for a one-unit [c], counted from [i]; -1 when absent. *)
Fixpoint indexOfFrom (c : ascii) (s : str) (i : Z) : Z :=
  match s with
  | [] => (-1)%Z
  | x :: s' => if Ascii.eqb x c then i else indexOfFrom c s' (i + 1)%Z
  end.

Definition indexOf (c : ascii) (s : str) : Z := indexOfFrom c s 0.

(** [s.lastIndexOf(c)]: [found] is the last index seen so far. *)
Fixpoint lastIndexOfFrom (c : ascii) (s : str) (i found : Z) : Z :=
  match s with
  | [] => found
  | x :: s' => lastIndexOfFrom c s' (i + 1)%Z (if Ascii.eqb x c then i else found)
  end.

Definition lastIndexOf (c : ascii) (s : str) : Z := lastIndexOfFrom c s 0 (-1).

(** [s.substring(start, end)]: both indices are clamped to the string and
    swapped when they come in the wrong order. *)
Definition substring (s : str) (start finish : Z) : str :=
  let len := Z.of_nat (length s) in
  let a := Z.min (Z.max start 0) len in
  let b := Z.min (Z.max finish 0) len in
  let lo := Z.min a b in
  let hi := Z.max a b in
  firstn (Z.to_nat (hi - lo)) (skipn (Z.to_nat lo) s).








End Runtime.

(* ------------------------------------------------------------------ *)
(** ** The other methods of [AIClient] *)

Module Client.

Import Runtime.

(** The four strings of the type ['Low' | 'Medium' | 'High' | 'Critical']. *)
Definition riskName (l : Security.RiskLevel) : string :=
  match l with
  | Security.Low => "Low"
  | Security.Medium => "Medium"
  | Security.High => "High"
  | Security.Critical => "Critical"
  end.

(** [normalizeRiskLevel(level)]; [None] stands for an undefined or null
    [level], which [level?.toLowerCase() || ''] turns into the empty
    string. *)
Definition normalizeRiskLevel (level : option str) : Security.RiskLevel :=
  let normalized := match level with Some s => toLowerCase s | None => [] end in
  if includes normalized (lit "low") then Security.Low
  else if includes normalized (lit "med") then Security.Medium
  else if includes normalized (lit "high") then Security.High
  else if includes normalized (lit "crit") then Security.Critical
  else Security.Medium.

(** [jsonText.substring(jsonText.indexOf('{'), jsonText.lastIndexOf('}') + 1)],
    the extraction of the JSON object from the generated text in
    [generateSecurityReport] and [optimizeEcoImpact]. *)
Definition jsonSpan (jsonText : str) : str :=
  substring jsonText (indexOf "{" jsonText) (lastIndexOf "}" jsonText + 1)%Z.





(** The values taken by [language] in [localCodeExplanation]. *)
Inductive Language : Type :=
| Unknown | React | JavaScriptTypeScript | Python | Java | CCpp | Go | Rust
| PHP | Ruby | CSharp | Swift | Kotlin | HTML | SQL | ShellBash.

Definition languageName (l : Language) : string :=
  match l with
  | Unknown => "unknown"
  | React => "React"
  | JavaScriptTypeScript => "JavaScript/TypeScript"
  | Python => "Python"
  | Java => "Java"
  | CCpp => "C/C++"
  | Go => "Go"
  | Rust => "Rust"
  | PHP => "PHP"
  | Ruby => "Ruby"
  | CSharp => "C#"
  | Swift => "Swift"
  | Kotlin => "Kotlin"
  | HTML => "HTML"
  | SQL => "SQL"
  | ShellBash => "Shell/Bash"
  end.

(** [code.includes(w)] *)
Definition inc (code : str) (w : string) : bool := includes code (lit w).

(** The language cascade of [localCodeExplanation]. *)
Definition detectLanguage (code : str) : Language :=
  if inc code "import React" ||
     (inc code "function" && inc code "return" && (inc code "<div>" || inc code "<>"))
  then React
  else if inc code "import " && inc code "from " && inc code "const " && inc code "=>"
  then JavaScriptTypeScript
  else if inc code "def " && inc code ":" && inc code "import " then Python
  else if inc code "public class " && inc code "{" && inc code "}" then Java
  else if inc code "#include" && inc code "int main(" then CCpp
  else if inc code "package main" && inc code "func " && inc code "import (" then Go
  else if inc code "fn " && (inc code "let mut " || inc code "impl" || inc code "pub struct")
  then Rust
  else if inc code "<?php" || (inc code "function" && inc code "$") then PHP
  else if inc code "class " && inc code "def " && inc code "end" then Ruby
  else if inc code "using System" && inc code "namespace " then CSharp
  else if inc code "import SwiftUI" || (inc code "class" && inc code "override func")
  then Swift
  else if inc code "fun " && inc code "val " && inc code "kotlin" then Kotlin
  else if inc code "<!DOCTYPE html>" || inc code "<html>" then HTML
  else if inc code "SELECT" && inc code "FROM" && (inc code "WHERE" || inc code "JOIN")
  then SQL
  else if inc code "#!/bin/" || (inc code "echo " && inc code "=") then ShellBash
  else Unknown.








End Client.

(* ------------------------------------------------------------------ *)
(** ** The similarity index as its callers use it *)

Module Index.

Import VectorStore.

(** [getFiles()] *)
Definition getFiles (files : store) : list (str * str) :=
  map (fun f => (path f, content f)) files.

(** The stores the component can hold: empty at first and after [clear],
    grown by [addFile] only. *)
Inductive built : store -> Prop :=
| built_empty : built []
| built_add (path content : str) (rnd : nat -> Q) (files : store) :
    built files -> built (addFile path content rnd files).

(** The extension test of [handleFolderSelect]:
    [/\.(js|ts|jsx|tsx|py|rb|java|c|cpp|h|cs|php|html|css|json|md|rs|go)$/i] *)
Definition sourceExtensions : list string :=
  ["js"; "ts"; "jsx"; "tsx"; "py"; "rb"; "java"; "c"; "cpp"; "h"; "cs"; "php";
   "html"; "css"; "json"; "md"; "rs"; "go"].

Definition sourceFileName : RegExp :=
  rei (seqs [txt "."; Grp 1 (words sourceExtensions); Eol]).

(** The two guards at the head of the loop of [handleFolderSelect]: a file
    is read when it is a text file or bears a source extension, and its
    name does not start with a dot. *)
Definition loaded (type name : str) : bool :=
  negb (negb (includes type (lit "text")) && negb (test sourceFileName name))
  && negb (startsWith (lit ".") name).

End Index.

(* ------------------------------------------------------------------ *)
(** ** The findings a report can list *)

Module Findings.

Import Security.

(** The threat each detector pushes when it pushes one, in the order of
    [detectors]. *)
Definition labels : list string :=
  [ "API endpoints detected without CORS protection";
    "Overly permissive CORS configuration (Access-Control-Allow-Origin: *)";
    "API endpoints may lack proper authentication";
    "User input processing without obvious validation/sanitization";
    "Handling sensitive data without obvious encryption/protection";
    "Potential logging of sensitive information";
    "API endpoints without proper error handling detected";
    "Potential SQL injection vulnerability detected";
    "Potential Cross-site Scripting (XSS) vulnerability detected";
    "Security headers may be missing from HTTP responses";
    "Potential hardcoded credentials or secrets detected";
    "Potential Insecure Direct Object Reference (IDOR) vulnerability";
    "Potential command injection vulnerability detected";
    "Use of unsafe Rust code detected - potential memory safety issues";
    "Use of raw pointers in Rust - potential memory safety issues";
    "Foreign Function Interface (FFI) usage detected - potential safety issues";
    "Unchecked result/option usage with unwrap() or panic! - potential runtime failures";
    "Use of eval() or dynamic function creation - security risk";
    "Direct cookie manipulation - potential cookie security issues";
    "Using innerHTML without proper sanitization - potential XSS risk";
    "Potential storage of sensitive data in localStorage/sessionStorage";
    "Using postMessage without origin validation";
    "Use of unsafe deserialization (pickle/marshal) - security risk";
    "Dynamic imports - potential code injection vector";
    "Web framework detected without obvious CSRF protection";
    "Debug mode may be enabled in a web application" ].

(** No string occurs twice in [l]. *)
Fixpoint distinct (l : list string) : bool :=
  match l with
  | [] => true
  | x :: l' => negb (existsb (String.eqb x) l') && distinct l'
  end.

Definition levels : list RiskLevel := [Low; Medium; High; Critical].

(** The detector leaves no level at [Low]. *)
Definition leavesLow (d : detector) : bool :=
  forallb (fun l => negb (level_eqb (raise d l) Low)) levels.

(** The detector keeps a level that is High or Critical so. *)
Definition keepsHigh (d : detector) : bool :=
  forallb (fun l => implb (2 <=? rank l) (2 <=? rank (raise d l))) levels.

(** The detector keeps Critical. *)
Definition keepsCritical (d : detector) : bool :=
  level_eqb (raise d Critical) Critical.

End Findings.

(* ------------------------------------------------------------------ *)
(** ** The language tag of the specification *)

Inductive LanguageTag : Type :=
| TagRust | TagJava | TagPython | TagJavascript | TagCpp | TagUnknown.

Definition securityTag (l : Security.Language) : LanguageTag :=
  match l with
  | Security.rust => TagRust
  | Security.java => TagJava
  | Security.python => TagPython
  | Security.javascript => TagJavascript
  | Security.c_cpp => TagCpp
  | Security.unknown => TagUnknown
  end.

Definition ecoTag (l : Eco.Language) : LanguageTag :=
  match l with
  | Eco.Rust => TagRust
  | Eco.Java => TagJava
  | Eco.Python => TagPython
  | Eco.JavaScriptTypeScript => TagJavascript
  | Eco.CCpp => TagCpp
  | Eco.Unknown => TagUnknown
  end.

(* ================================================================== *)
(** * Properties *)

(** ** Strings and the matcher *)

Section MatcherFacts.

Lemma startsWith_app (w s : str) :
  startsWith w s = true -> exists post, s = w ++ post.
Proof.
  revert s; induction w as [|a w IH]; intros s H.
  - exists s; reflexivity.
  - destruct s as [|b s]; simpl in H; [discriminate|].
    apply andb_true_iff in H as [Hab Hw].
    apply Ascii.eqb_eq in Hab; subst b.
    destruct (IH _ Hw) as [post ->].
    exists post; reflexivity.
Qed.

Lemma includes_app (s w : str) :
  includes s w = true -> exists pre post, s = pre ++ w ++ post.
Proof.
  induction s as [|c s IH]; simpl; intros H.
  - apply orb_true_iff in H as [H|H]; [|discriminate].
    destruct (startsWith_app _ _ H) as [post E].
    exists [], post; exact E.
  - apply orb_true_iff in H as [H|H].
    + destruct (startsWith_app _ _ H) as [post E].
      exists [], post; exact E.
    + destruct (IH H) as (pre & post & ->).
      exists (c :: pre), post; reflexivity.
Qed.

(** A match at the head of a suffix makes [test] succeed. *)
Lemma test_suffix (p : RegExp) (pre s : str) :
  isSome (execAt p s) = true -> test p (pre ++ s) = true.
Proof.
  intros H; unfold test.
  induction pre as [|c pre IH]; simpl.
  - destruct s; simpl; destruct (execAt p _); try reflexivity; discriminate.
  - destruct (execAt p (c :: pre ++ s)); [reflexivity|].
    destruct (exec p (pre ++ s)); [reflexivity | discriminate].
Qed.

Variable A : Type.
Implicit Type k : str -> caps -> option A.

Lemma m_chars (w post : str) (cs : caps) k :
  m false (chars w) (w ++ post) cs k = k post cs.
Proof.
  revert post; induction w as [|c w IH]; intros post; [reflexivity|].
  destruct w as [|c' w].
  - simpl. rewrite Ascii.eqb_refl. reflexivity.
  - change (chars (c :: c' :: w)) with (Seq (Chr c) (chars (c' :: w))).
    simpl m at 1. simpl app. unfold chrEq.
    rewrite Ascii.eqb_refl. apply (IH post).
Qed.

Lemma m_alt_l (ic : bool) (r1 r2 : regex) (s : str) (cs : caps) k :
  isSome (m ic r1 s cs k) = true -> isSome (m ic (Alt r1 r2) s cs k) = true.
Proof. simpl. destruct (m ic r1 s cs k); [reflexivity | discriminate]. Qed.

Lemma m_alt_r (ic : bool) (r1 r2 : regex) (s : str) (cs : caps) k :
  isSome (m ic r2 s cs k) = true -> isSome (m ic (Alt r1 r2) s cs k) = true.
Proof. simpl. destruct (m ic r1 s cs k); [reflexivity | trivial]. Qed.

(** A greedy star in front of an accepting continuation never fails. *)
Lemma m_star_total (ic : bool) (r : regex) (s : str) (cs : caps) k :
  total k -> isSome (m ic (Star true r) s cs k) = true.
Proof.
  intros Hk. simpl.
  destruct (length s) as [|f]; [apply Hk|].
  match goal with |- isSome (match ?x with _ => _ end) = true => destruct x end;
    [reflexivity | apply Hk].
Qed.

End MatcherFacts.

(** ** The two language cascades *)

Section Cascades.

Import Eco.

Lemma accept_total (s : str) : total (accept s).
Proof. intros s' cs; reflexivity. Qed.

(** Each of the four substrings tested by the security cascade is matched
    by the signature tested by the eco cascade. *)
Lemma jsSignature_at (w : string) (post : str) :
  In w ["console.log"; "function("; "const "; "let "] ->
  isSome (execAt jsSignature (lit w ++ post)) = true.
Proof.
  intros Hw. unfold execAt, jsSignature, re, pattern, ignoreCase.
  generalize (accept_total (lit w ++ post)).
  generalize (accept (lit w ++ post)); intros k Hk.
  simpl in Hw.
  destruct Hw as [<-|[<-|[<-|[<-|[]]]]].
  - apply m_alt_l. unfold txt. rewrite m_chars. apply Hk.
  - apply m_alt_r, m_alt_l.
    change (lit "function(" ++ post) with (lit "function" ++ lit "(" ++ post).
    unfold seqs, txt. simpl m at 1. apply (Hk post).
  - apply m_alt_r, m_alt_r, m_alt_l.
    change (lit "const " ++ post) with (lit "const" ++ lit " " ++ post).
    unfold txt. simpl m at 1.
    change (isSome (m false (Star true (Cls false isSpace)) post [] k) = true).
    apply m_star_total, Hk.
  - apply m_alt_r, m_alt_r, m_alt_r, m_alt_l.
    change (lit "let " ++ post) with (lit "let" ++ lit " " ++ post).
    unfold txt. simpl m at 1.
    change (isSome (m false (Star true (Cls false isSpace)) post [] k) = true).
    apply m_star_total, Hk.
Qed.

Lemma jsSignature_includes (s : str) (w : string) :
  In w ["console.log"; "function("; "const "; "let "] ->
  includes s (lit w) = true -> test jsSignature s = true.
Proof.
  intros Hw H.
  destruct (includes_app _ _ H) as (pre & post & ->).
  apply test_suffix, jsSignature_at, Hw.
Qed.

Lemma security_js_markers (code : str) :
  lc code "console.log" || lc code "function(" || lc code "const " || lc code "let " = true ->
  test jsSignature (toLowerCase code) = true.
Proof.
  unfold lc. intros H.
  repeat (apply orb_true_iff in H as [H|H]);
    eapply jsSignature_includes; try exact H; simpl; auto.
Qed.

End Cascades.

(** C4, amended.  Each engine runs its own cascade.  The two answers name
    the same language, except that the eco engine tests its JavaScript
    signature before Python: it may answer JavaScript/TypeScript where the
    security engine answers python, c/c++ or unknown. *)
Theorem language_cascades_agree_up_to_javascript (text : str) :
  securityTag (Security.detectLanguage text) = ecoTag (Eco.detectLanguage text)
  \/ (Eco.detectLanguage text = Eco.JavaScriptTypeScript /\
      (Security.detectLanguage text = Security.python \/
       Security.detectLanguage text = Security.c_cpp \/
       Security.detectLanguage text = Security.unknown)).
Proof.
  unfold Security.detectLanguage, Eco.detectLanguage.
  destruct (lc text "fn main" &&
            (lc text "impl" || lc text "struct" || lc text "use std"));
    [left; reflexivity|].
  destruct (lc text "public static void main"); [left; reflexivity|].
  pose proof (security_js_markers text) as Hjs.
  destruct (test Eco.jsSignature (toLowerCase text)).
  - destruct (lc text "def " && (lc text "import " || lc text "class ")).
    + right; auto.
    + destruct (lc text "console.log" || lc text "function(" ||
                lc text "const " || lc text "let "); [left; reflexivity|].
      destruct (lc text "#include"); right; auto.
  - destruct (lc text "def " && (lc text "import " || lc text "class "));
      [left; reflexivity|].
    destruct (lc text "console.log" || lc text "function(" ||
              lc text "const " || lc text "let ").
    + discriminate (Hjs eq_refl).
    + destruct (lc text "#include"); left; reflexivity.
Qed.

(** C4 as stated fails: a text with both the Python and the JavaScript
    markers is python for the security engine and JavaScript/TypeScript for
    the eco engine. *)
Lemma language_cascades_disagree :
  ~ (forall text : str,
       securityTag (Security.detectLanguage text) = ecoTag (Eco.detectLanguage text)).
Proof.
  intros H.
  specialize (H (lit "import os; def f(): const ")).
  vm_compute in H. discriminate H.
Qed.

(** ** The security rule engine *)

Section SecurityFacts.

Import Security.

Lemma level_eqb_eq (a b : RiskLevel) : level_eqb a b = true -> a = b.
Proof. destruct a, b; simpl; intros H; try reflexivity; discriminate H. Qed.

Lemma maxLevel_comm (a b : RiskLevel) : maxLevel a b = maxLevel b a.
Proof. destruct a, b; reflexivity. Qed.

Lemma maxLevel_assoc (a b c : RiskLevel) :
  maxLevel a (maxLevel b c) = maxLevel (maxLevel a b) c.
Proof. destruct a, b, c; reflexivity. Qed.

Lemma maxLevel_Low (a : RiskLevel) : maxLevel a Low = a.
Proof. destruct a; reflexivity. Qed.

Lemma maxStyle_raise (d : detector) (l : RiskLevel) :
  maxStyle d = true -> raise d l = maxLevel l (raise d Low).
Proof.
  unfold maxStyle; intros H.
  rewrite forallb_forall in H.
  apply level_eqb_eq, H. destruct l; simpl; auto.
Qed.

Lemma level_step (request : str) (st : state) (d : detector) :
  level (step request st d) = if fires d request then raise d (level st) else level st.
Proof. unfold step; destruct (fires d request); reflexivity. Qed.

Lemma run_maxStyle (request : str) (ds : list detector) (st : state) :
  firedAreMaxStyle request ds = true ->
  level (fold_left (step request) ds st) = maxLevel (level st) (proposed request ds).
Proof.
  revert st; induction ds as [|d ds IH]; intros st H; simpl.
  - symmetry; apply maxLevel_Low.
  - simpl in H. apply andb_true_iff in H as [Hd Hds].
    rewrite (IH _ Hds), level_step.
    destruct (fires d request); [|reflexivity].
    simpl in Hd. rewrite (maxStyle_raise _ (level st) Hd).
    symmetry; apply maxLevel_assoc.
Qed.

Lemma proposed_perm (request : str) (ds ds' : list detector) :
  Permutation ds ds' -> proposed request ds = proposed request ds'.
Proof.
  induction 1 as [|d l l' _ IH|d e l|l l' l'' _ IH1 _ IH2]; simpl.
  - reflexivity.
  - rewrite IH; reflexivity.
  - destruct (fires d request), (fires e request); try reflexivity.
    rewrite !maxLevel_assoc, (maxLevel_comm (raise e Low)); reflexivity.
  - congruence.
Qed.

Lemma firedAreMaxStyle_perm (request : str) (ds ds' : list detector) :
  Permutation ds ds' ->
  firedAreMaxStyle request ds = true -> firedAreMaxStyle request ds' = true.
Proof.
  unfold firedAreMaxStyle; intros P H.
  rewrite forallb_forall in *. intros d Hd.
  apply H. eapply Permutation_in; [symmetry; exact P | exact Hd].
Qed.

Lemma level_recommendations (ps : list (string * string)) (st : state) :
  level (fold_left (fun s p => recommendFor (fst p) (snd p) s) ps st) = level st.
Proof.
  revert st; induction ps as [|p ps IH]; intros st; simpl; [reflexivity|].
  rewrite IH. unfold recommendFor.
  destruct (existsb _ _); reflexivity.
Qed.

Lemma riskLevel_analysisWith (ds : list detector) (request : str) :
  riskLevel (analysisWith ds request) = level (run ds request).
Proof. unfold analysisWith, finish. apply level_recommendations. Qed.

(** [trace] lists the levels [run] goes through and ends on its level. *)
Lemma trace_last (request : str) (ds : list detector) (st : state) (d : RiskLevel) :
  last (trace request (level st) ds) d = level (fold_left (step request) ds st).
Proof.
  revert st; induction ds as [|x ds IH]; intros st; [reflexivity|].
  simpl fold_left. rewrite <- IH, level_step.
  simpl trace.
  destruct (trace request (if fires x request then raise x (level st) else level st) ds)
    eqn:E; [destruct ds; discriminate E | reflexivity].
Qed.

Lemma orDefault_nonempty (x : string) (a : list string) : orDefault x a <> [].
Proof. destruct a; discriminate. Qed.

End SecurityFacts.

(** C3, amended.  On an input where every detector that fires assigns
    max(current, proposed) for a fixed proposed level, the detectors can be
    taken in any order: the final risk level is the same. *)
Theorem detector_order_irrelevant_when_max_style
        (request : str) (ds : list Security.detector) :
  Permutation ds Security.detectors ->
  Security.firedAreMaxStyle request Security.detectors = true ->
  Security.riskLevel (Security.analysisWith ds request)
  = Security.riskLevel (Security.localSecurityAnalysis request).
Proof.
  intros P H.
  unfold Security.localSecurityAnalysis.
  rewrite !riskLevel_analysisWith. unfold Security.run.
  rewrite !run_maxStyle.
  - rewrite (proposed_perm request P); reflexivity.
  - exact H.
  - apply (firedAreMaxStyle_perm request (Permutation_sym P) H).
Qed.

Lemma detector_order_irrelevant_when_max_style_witness :
  Security.riskLevel
    (Security.analysisWith (rev Security.detectors) (lit "exec(input) findById(id)"))
  = Security.riskLevel (Security.localSecurityAnalysis (lit "exec(input) findById(id)")).
Proof.
  apply (@detector_order_irrelevant_when_max_style
           (lit "exec(input) findById(id)") (rev Security.detectors)).
  - apply Permutation_sym, Permutation_rev.
  - vm_compute. reflexivity.
Defined.

(** C3 as stated fails: on a text that asks for input and mentions
    a password, swapping the input check and the sensitive-data check turns
    Critical into High. *)
Lemma detector_order_matters :
  ~ (forall (request : str) (ds : list Security.detector),
       Permutation ds Security.detectors ->
       Security.riskLevel (Security.analysisWith ds request)
       = Security.riskLevel (Security.localSecurityAnalysis request)).
Proof.
  intros H.
  pose (ds := firstn 3 Security.detectors
              ++ [Security.sensitiveUnprotected; Security.inputUnvalidated]
              ++ skipn 5 Security.detectors).
  assert (P : Permutation ds Security.detectors).
  { unfold ds, Security.detectors. simpl.
    do 3 apply perm_skip. apply perm_swap. }
  specialize (H (lit "password input") ds P).
  vm_compute in H. discriminate H.
Qed.

(** C1.  On "password select input" the sensitive-data check raises the
    level to Critical and the SQL check, which assigns High without looking
    at the current level, brings it back to High: the level decreases while
    the detectors run and the report carries High, not the maximum
    reached. *)
Theorem risk_level_drops_after_sql_check :
  let request := lit "password select input" in
  let before := firstn 7 Security.detectors in
  Security.detectors = before ++ Security.sqlInjection :: skipn 8 Security.detectors
  /\ Security.fires Security.sqlInjection request = true
  /\ Security.level (Security.run before request) = Security.Critical
  /\ Security.level (Security.run (before ++ [Security.sqlInjection]) request)
     = Security.High
  /\ In Security.Critical (Security.trace request Security.Low Security.detectors)
  /\ Security.riskLevel (Security.localSecurityAnalysis request) = Security.High.
Proof.
  repeat split; try (vm_compute; reflexivity).
  vm_compute. tauto.
Qed.

(** C5.  When no detector fires the report is Low with the single neutral
    threat and the single generic recommendation; on every input the two
    lists are non-empty. *)
Theorem all_clear_is_a_finding (request : str) :
  (forallb (fun d => negb (Security.fires d request)) Security.detectors = true ->
   Security.riskLevel (Security.localSecurityAnalysis request) = Security.Low /\
   Security.threats (Security.localSecurityAnalysis request) = [Security.noThreat] /\
   Security.recommendations (Security.localSecurityAnalysis request)
   = [Security.genericAdvice])
  /\ Security.threats (Security.localSecurityAnalysis request) <> []
  /\ Security.recommendations (Security.localSecurityAnalysis request) <> [].
Proof.
  split; [|split].
  - intros H.
    assert (E : Security.run Security.detectors request = Security.initial).
    { unfold Security.run. revert H.
      generalize Security.initial as st.
      induction Security.detectors as [|d ds IH]; intros st H; simpl; [reflexivity|].
      simpl in H. apply andb_true_iff in H as [Hd Hds].
      unfold Security.step at 2.
      destruct (Security.fires d request); [discriminate Hd|].
      apply IH, Hds. }
    unfold Security.localSecurityAnalysis, Security.analysisWith.
    rewrite E. repeat split.
  - unfold Security.localSecurityAnalysis, Security.analysisWith, Security.finish.
    cbv zeta. cbn [Security.threats]. apply orDefault_nonempty.
  - unfold Security.localSecurityAnalysis, Security.analysisWith, Security.finish.
    cbv zeta. cbn [Security.recommendations]. apply orDefault_nonempty.
Qed.

Lemma all_clear_is_a_finding_witness :
  Security.riskLevel (Security.localSecurityAnalysis (lit "hello world")) = Security.Low /\
  Security.threats (Security.localSecurityAnalysis (lit "hello world"))
  = [Security.noThreat] /\
  Security.recommendations (Security.localSecurityAnalysis (lit "hello world"))
  = [Security.genericAdvice].
Proof.
  apply (proj1 (all_clear_is_a_finding (lit "hello world"))).
  vm_compute. reflexivity.
Defined.

(** C6.  The confidence is 0.6, plus 0.1 when the language is known, minus
    0.2 below 100 characters, plus 0.1 above 1000 characters; nothing
    clamps it. *)
Theorem confidence_is_additive (request : str) :
  (Security.confidenceLevel (Security.localSecurityAnalysis request)
   == 0.6
      + (if Security.isUnknown (Security.detectLanguage request) then 0 else 0.1)
      - (if length request <? 100 then 0.2 else 0)
      + (if 1000 <? length request then 0.1 else 0))%Q.
Proof.
  unfold Security.localSecurityAnalysis, Security.analysisWith, Security.finish.
  simpl. unfold Security.confidence.
  destruct (Security.isUnknown _);
    destruct (length request <? 100) eqn:Hs;
    destruct (1000 <? length request) eqn:Hl;
    try reflexivity;
    apply Nat.ltb_lt in Hs; apply Nat.ltb_lt in Hl; lia.
Qed.

(** ** The eco rule engine *)

Section EcoFacts.

Import Eco.
Local Open Scope Z_scope.

(** A rule adds at most its [delta], or nothing. *)
Lemma rule_score (guard : bool) (i s : list string) (delta : Z) (a : acc) :
  baseScore (rule guard i s delta a) = baseScore a + (if guard then delta else 0).
Proof. unfold rule; destruct guard; simpl; lia. Qed.

Lemma rule_le (guard : bool) (i s : list string) (delta bound : Z) (a : acc) :
  delta <= 0 -> baseScore a <= bound -> baseScore (rule guard i s delta a) <= bound.
Proof. intros Hd Ha. rewrite rule_score. destruct guard; lia. Qed.

(** The three bonuses: 5 and 3 in the AI block, 5 in the Rust block. *)
Lemma aiRule_le (code : str) (a : acc) (bound : Z) :
  baseScore a <= bound -> baseScore (aiRule code a) <= bound + 8.
Proof.
  intros Ha. unfold aiRule.
  destruct (hasAI code); [|lia].
  repeat match goal with
         | |- context [if ?b then _ else _] => destruct b
         end;
    rewrite ?rule_score; simpl;
    repeat match goal with
           | |- context [if ?b then _ else _] => destruct b
           end; lia.
Qed.

Lemma languageRules_le (l : Language) (code : str) (a : acc) (bound : Z) :
  baseScore a <= bound -> baseScore (languageRules l code a) <= bound + 5.
Proof.
  intros Ha.
  destruct l; simpl; [lia| | | | |];
    unfold rustRules, javaRules, javascriptRules, pythonRules, cppRules;
    cbv zeta;
    repeat match goal with
           | |- context [if ?b then rule _ _ _ _ _ else _] => destruct b
           end;
    rewrite ?rule_score;
    repeat match goal with
           | |- context [if ?b then _ else _] => destruct b
           end; lia.
Qed.

Lemma initialScore_le (l : Language) : initialScore l <= 75.
Proof. destruct l; simpl; lia. Qed.

Lemma rules_le (code : str) : baseScore (rules code) <= 88.
Proof.
  unfold rules; cbv zeta.
  unfold stringConcatRule, mediaRule, cryptoRule, concatRule, recursionRule,
    nestedRule, duplicateRule, redundancyRule; cbv zeta.
  apply rule_le; [lia|].
  change 88 with (83 + 5). apply languageRules_le.
  do 5 (apply rule_le; [lia|]).
  change 83 with (75 + 8). apply aiRule_le.
  do 2 (apply rule_le; [lia|]).
  apply initialScore_le.
Qed.

Lemma computed_le (code : str) : fst (fst (computed code)) <= 88.
Proof.
  pose proof (rules_le code) as H.
  unfold computed; cbv zeta.
  repeat match goal with
         | |- context [if ?b then _ else _] => destruct b
         end; simpl; lia.
Qed.

End EcoFacts.

(** C2.  The score returned is the computed score clamped to [35, 95],
    plus 5 after the clamp when no issue was found; it lies in [35, 95] on
    every input, since the score of a text without issues never exceeds 88
    before the clamp. *)
Theorem ecoScore_clamped_then_bonus (code : str) :
  (Eco.ecoScore (Eco.localEcoAnalysis code)
   = Eco.clamp (fst (fst (Eco.computed code)))
     + (if Eco.isNil (snd (fst (Eco.computed code))) then 5 else 0))%Z
  /\ (35 <= Eco.ecoScore (Eco.localEcoAnalysis code) <= 95)%Z.
Proof.
  pose proof (computed_le code) as Hle.
  unfold Eco.localEcoAnalysis.
  destruct (Eco.computed code) as [[score issues] suggestions].
  simpl in *.
  destruct (Eco.isNil issues); simpl; unfold Eco.clamp; lia.
Qed.

(** ** The embedding generator *)

Section EmbeddingFacts.

Import Embedding.

(** Index-wise assignment of [n] values to an array of [n] zeros gives the
    values. *)
Lemma assign_app (pre : list Q) (x v : Q) (post : list Q) :
  assign (length pre) v (pre ++ x :: post) = pre ++ v :: post.
Proof. induction pre as [|p pre IH]; simpl; [reflexivity | rewrite IH; reflexivity]. Qed.

Lemma assign_in_turn (pre vs : list Q) :
  fold_left (fun e iv => assign (fst iv) (snd iv) e)
            (combine (seq (length pre) (length vs)) vs)
            (pre ++ repeat 0%Q (length vs))
  = pre ++ vs.
Proof.
  revert pre; induction vs as [|v vs IH]; intros pre; simpl.
  - reflexivity.
  - rewrite assign_app.
    change (pre ++ v :: repeat 0%Q (length vs))
      with (pre ++ [v] ++ repeat 0%Q (length vs)).
    rewrite app_assoc.
    replace (S (length pre)) with (length (pre ++ [v]))
      by (rewrite length_app; simpl; lia).
    rewrite IH, <- app_assoc. reflexivity.
Qed.

Lemma values_length (text : str) (rnd : nat -> Q) :
  length (statistics text ++ signatures text ++ noise rnd) = 32%nat.
Proof. reflexivity. Qed.

Lemma rawEmbedding_values (text : str) (rnd : nat -> Q) :
  rawEmbedding text rnd = statistics text ++ signatures text ++ noise rnd.
Proof.
  unfold rawEmbedding.
  rewrite <- (values_length text rnd).
  apply (assign_in_turn []).
Qed.

Local Open Scope R_scope.

Lemma reduce_sumsq (v : list R) (a : R) :
  fold_left (fun sum val => sum + val * val) v a = a + sumsq v.
Proof.
  revert a; induction v as [|x v IH]; intros a; simpl; [lra|].
  rewrite IH; lra.
Qed.

Lemma magnitude_sumsq (v : list R) : magnitude v = sqrt (sumsq v).
Proof. unfold magnitude. rewrite reduce_sumsq. f_equal; lra. Qed.

Lemma sumsq_nonneg (v : list R) : 0 <= sumsq v.
Proof.
  induction v as [|x v IH]; simpl; [lra|].
  pose proof (Rle_0_sqr x) as Hx. unfold Rsqr in Hx. lra.
Qed.

Lemma sumsq_app (u v : list R) : sumsq (u ++ v) = sumsq u + sumsq v.
Proof. induction u as [|x u IH]; simpl; [lra | rewrite IH; lra]. Qed.

Lemma sumsq_scaled (c : R) (v : list R) :
  c <> 0 -> sumsq (map (fun val => val / c) v) = sumsq v / (c * c).
Proof.
  intros Hc. induction v as [|x v IH]; simpl.
  - field; exact Hc.
  - rewrite IH. field; exact Hc.
Qed.

(** A vector with a non-zero magnitude is normalised to magnitude 1. *)
Lemma normalise_unit (v : list R) : magnitude v <> 0 -> magnitude (normalise v) = 1.
Proof.
  intros Hm. unfold normalise.
  destruct (Req_dec_T (magnitude v) 0) as [E|_]; [contradiction|].
  rewrite magnitude_sumsq, sumsq_scaled by exact Hm.
  rewrite magnitude_sumsq in *.
  rewrite sqrt_sqrt by apply sumsq_nonneg.
  assert (Hs : sumsq v <> 0).
  { intros E. apply Hm. rewrite E. apply sqrt_0. }
  replace (sumsq v / sumsq v) with 1 by (field; exact Hs).
  apply sqrt_1.
Qed.

Lemma normalise_length (v : list R) : length (normalise v) = length v.
Proof. unfold normalise. apply length_map. Qed.

Lemma signature_values (text : str) (p : RegExp) :
  signature text p = 0.9%Q \/ signature text p = (-0.5)%Q.
Proof. unfold signature. destruct (test p text); auto. Qed.

Lemma signature_square (text : str) (p : RegExp) :
  1 / 4 <= Q2R (signature text p) * Q2R (signature text p).
Proof.
  destruct (signature_values text p) as [-> | ->]; unfold Q2R; simpl; lra.
Qed.

(** The six signature entries alone weigh at least 6 times 0.25. *)
Lemma raw_sumsq_lower (text : str) (rnd : nat -> Q) :
  3 / 2 <= sumsq (map Q2R (rawEmbedding text rnd)).
Proof.
  rewrite rawEmbedding_values, !map_app, !sumsq_app.
  pose proof (sumsq_nonneg (map Q2R (statistics text))) as H1.
  pose proof (sumsq_nonneg (map Q2R (noise rnd))) as H3.
  assert (H2 : 3 / 2 <= sumsq (map Q2R (signatures text))).
  { unfold signatures, signaturePatterns. simpl map. simpl sumsq.
    repeat match goal with
           | |- context [Q2R (signature text ?p)] =>
               pose proof (signature_square text p);
               generalize dependent (Q2R (signature text p)); intros
           end.
    lra. }
  lra.
Qed.

Lemma raw_magnitude_pos (text : str) (rnd : nat -> Q) :
  0 < magnitude (map Q2R (rawEmbedding text rnd)).
Proof.
  rewrite magnitude_sumsq. apply sqrt_lt_R0.
  pose proof (raw_sumsq_lower text rnd). lra.
Qed.

End EmbeddingFacts.

(** C7.  The embedding has 32 entries; its magnitude is 1 unless the
    magnitude of the array before normalisation is 0, in which case the
    array is divided by 1. *)
Theorem embedding_has_unit_norm (text : str) (rnd : nat -> Q) :
  length (Embedding.generateTextEmbedding text rnd) = 32%nat
  /\ (Embedding.magnitude (map Q2R (Embedding.rawEmbedding text rnd)) <> 0%R ->
      Embedding.magnitude (Embedding.generateTextEmbedding text rnd) = 1%R)
  /\ (Embedding.magnitude (map Q2R (Embedding.rawEmbedding text rnd)) = 0%R ->
      Embedding.generateTextEmbedding text rnd
      = map (fun val => (val / 1)%R) (map Q2R (Embedding.rawEmbedding text rnd))).
Proof.
  unfold Embedding.generateTextEmbedding. split; [|split].
  - rewrite normalise_length, length_map, rawEmbedding_values. reflexivity.
  - apply normalise_unit.
  - intros E. unfold Embedding.normalise.
    destruct (Req_dec_T _ 0%R) as [_|N]; [reflexivity | contradiction].
Qed.

Lemma embedding_has_unit_norm_witness :
  Embedding.magnitude
    (Embedding.generateTextEmbedding (lit "const x = 1;") (fun _ => 0.5%Q)) = 1%R.
Proof.
  apply (proj1 (proj2 (embedding_has_unit_norm (lit "const x = 1;") (fun _ => 0.5%Q)))).
  apply Rgt_not_eq, Rlt_gt, raw_magnitude_pos.
Defined.

(** C10.  Entries 15 to 20 of the array are 0.9 or -0.5 each, so the
    magnitude before normalisation is positive, the division is by the
    magnitude and never by 1, and the result has magnitude 1 on every
    input and for every noise. *)
Theorem embedding_guard_unreachable (text : str) (rnd : nat -> Q) :
  Forall (fun v => v = 0.9%Q \/ v = (-0.5)%Q)
         (firstn 6 (skipn 15 (Embedding.rawEmbedding text rnd)))
  /\ (0 < Embedding.magnitude (map Q2R (Embedding.rawEmbedding text rnd)))%R
  /\ Embedding.generateTextEmbedding text rnd
     = map (fun val =>
              (val / Embedding.magnitude (map Q2R (Embedding.rawEmbedding text rnd)))%R)
           (map Q2R (Embedding.rawEmbedding text rnd))
  /\ Embedding.magnitude (Embedding.generateTextEmbedding text rnd) = 1%R.
Proof.
  pose proof (raw_magnitude_pos text rnd) as Hpos.
  split; [|split; [|split]].
  - rewrite rawEmbedding_values.
    change (firstn 6 (skipn 15 (Embedding.statistics text ++
                                Embedding.signatures text ++ Embedding.noise rnd)))
      with (Embedding.signatures text).
    unfold Embedding.signatures.
    apply Forall_forall. intros v Hv.
    apply in_map_iff in Hv as (p & <- & _).
    apply signature_values.
  - exact Hpos.
  - unfold Embedding.generateTextEmbedding, Embedding.normalise.
    destruct (Req_dec_T _ 0%R) as [E|_]; [|reflexivity].
    rewrite E in Hpos. exfalso; apply (Rlt_irrefl _ Hpos).
  - apply normalise_unit, Rgt_not_eq, Rlt_gt, Hpos.
Qed.

(** ** The similarity index *)

Section VectorStoreFacts.

Import Embedding VectorStore.
Local Open Scope R_scope.

Lemma dot_comm (a b : list R) : dot a b = dot b a.
Proof.
  revert b; induction a as [|x a IH]; intros [|y b]; simpl; try reflexivity.
  rewrite IH; lra.
Qed.

(** What the loop has accumulated when both arrays have the same length. *)
Lemma accumulate_sums (a b : list R) (d m1 m2 : R) :
  length a = length b ->
  accumulate a b (d, m1, m2) = (d + dot a b, m1 + sumsq a, m2 + sumsq b).
Proof.
  revert b d m1 m2; induction a as [|x a IH]; intros [|y b] d m1 m2 H;
    simpl in *; try discriminate.
  - f_equal; [f_equal|]; lra.
  - injection H as H. rewrite (IH _ _ _ _ H).
    f_equal; [f_equal|]; lra.
Qed.

Lemma cosine_equal_length (a b : list R) :
  length a = length b ->
  calculateCosineSimilarity a b
  = if Req_dec_T (magnitude a * magnitude b) 0 then 0
    else dot a b / (magnitude a * magnitude b).
Proof.
  intros H. unfold calculateCosineSimilarity.
  rewrite H, Nat.eqb_refl. simpl negb. cbv iota.
  rewrite (accumulate_sums _ _ 0 0 0 H).
  rewrite !magnitude_sumsq, !Rplus_0_l. reflexivity.
Qed.

Lemma cosine_unequal_length (a b : list R) :
  length a <> length b -> calculateCosineSimilarity a b = 0.
Proof.
  intros H. unfold calculateCosineSimilarity.
  apply Nat.eqb_neq in H. rewrite H. reflexivity.
Qed.

(** *** Sorting by descending score *)

Lemma insert_perm (x : result) (l : list result) :
  Permutation (insert byScore x l) (x :: l).
Proof.
  induction l as [|y l IH]; simpl; [apply Permutation_refl|].
  destruct (Rlt_dec 0 (byScore x y)); [|apply Permutation_refl].
  eapply perm_trans; [apply perm_skip, IH | apply perm_swap].
Qed.

Lemma sort_perm (l : list result) : Permutation (sort byScore l) l.
Proof.
  induction l as [|x l IH]; simpl; [constructor|].
  eapply perm_trans; [apply insert_perm | apply perm_skip, IH].
Qed.

Lemma insert_sorted (x : result) (l : list result) :
  StronglySorted before_ l -> StronglySorted before_ (insert byScore x l).
Proof.
  induction 1 as [|y l Hs IH Hy]; simpl.
  - repeat constructor.
  - unfold byScore at 1.
    destruct (Rlt_dec 0 (score y - score x)) as [Hlt|Hge].
    + constructor; [exact IH|].
      rewrite Forall_forall in *. intros z Hz.
      apply (Permutation_in _ (insert_perm x l)) in Hz.
      destruct Hz as [<-|Hz]; [unfold before_; lra | apply Hy, Hz].
    + constructor; [constructor; assumption|].
      constructor; [unfold before_; lra|].
      rewrite Forall_forall in *. intros z Hz.
      specialize (Hy z Hz). unfold before_ in *. lra.
Qed.

Lemma sort_sorted (l : list result) : StronglySorted before_ (sort byScore l).
Proof.
  induction l as [|x l IH]; simpl; [constructor | apply insert_sorted, IH].
Qed.

(** Stability: inside each class of equal scores the order is kept. *)
Lemma insert_stable (v : R) (x : result) (l : list result) :
  filter (sameScore v) (insert byScore x l) = filter (sameScore v) (x :: l).
Proof.
  induction l as [|y l IH]; [reflexivity|].
  simpl insert. unfold byScore at 1.
  destruct (Rlt_dec 0 (score y - score x)) as [Hlt|Hge]; [|reflexivity].
  simpl filter at 1. rewrite IH. simpl.
  unfold sameScore.
  destruct (Req_dec_T (score x) v), (Req_dec_T (score y) v); try reflexivity.
  exfalso; lra.
Qed.

Lemma sort_stable (v : R) (l : list result) :
  filter (sameScore v) (sort byScore l) = filter (sameScore v) l.
Proof.
  induction l as [|x l IH]; [reflexivity|].
  simpl sort. rewrite insert_stable. simpl. rewrite IH. reflexivity.
Qed.

Lemma slice0_count {A : Type} (k : nat) (l : list A) :
  slice0 (Z.of_nat k) l = firstn k l.
Proof.
  unfold slice0.
  destruct (Z.ltb_spec (Z.of_nat k) 0) as [H|_]; [lia|].
  destruct (Nat.le_gt_cases k (length l)) as [Hk|Hk].
  - rewrite Z.min_l by lia. rewrite Nat2Z.id. reflexivity.
  - rewrite Z.min_r by lia. rewrite Nat2Z.id.
    rewrite !firstn_all2 by lia. reflexivity.
Qed.

Lemma in_firstn {A : Type} (k : nat) (l : list A) (z : A) :
  In z (firstn k l) -> In z l.
Proof.
  intros H. rewrite <- (firstn_skipn k l). apply in_or_app; left; exact H.
Qed.

Lemma firstn_sorted (k : nat) (l : list result) :
  StronglySorted before_ l -> StronglySorted before_ (firstn k l).
Proof.
  intros H; revert k; induction H as [|y l Hs IH Hy]; intros [|k]; simpl;
    try constructor.
  - apply IH.
  - rewrite Forall_forall in *. intros z Hz.
    apply Hy. apply (in_firstn _ _ _ Hz).
Qed.

End VectorStoreFacts.

(** C9.  The cosine similarity is symmetric; it is 1 between a vector of
    non-zero magnitude and itself; it is 0 whenever the product of the two
    magnitudes is 0. *)
Theorem cosine_similarity_properties (a b : list R) :
  VectorStore.calculateCosineSimilarity a b = VectorStore.calculateCosineSimilarity b a
  /\ (Embedding.magnitude a <> 0%R -> VectorStore.calculateCosineSimilarity a a = 1%R)
  /\ ((Embedding.magnitude a * Embedding.magnitude b)%R = 0%R ->
      VectorStore.calculateCosineSimilarity a b = 0%R).
Proof.
  split; [|split].
  - destruct (Nat.eq_dec (length a) (length b)) as [E|N].
    + rewrite (cosine_equal_length _ _ E), (cosine_equal_length _ _ (eq_sym E)).
      rewrite (Rmult_comm (Embedding.magnitude b)), (dot_comm b a). reflexivity.
    + rewrite !cosine_unequal_length; auto.
  - intros Hm. rewrite (cosine_equal_length a a eq_refl).
    destruct (Req_dec_T _ 0%R) as [E|_].
    + apply Rmult_integral in E. tauto.
    + rewrite !magnitude_sumsq in *.
      rewrite sqrt_sqrt by apply sumsq_nonneg.
      assert (Hs : Embedding.sumsq a <> 0%R).
      { intros E. apply Hm. rewrite E. apply sqrt_0. }
      replace (VectorStore.dot a a) with (Embedding.sumsq a).
      * field; exact Hs.
      * clear. induction a as [|x a IH]; simpl; [reflexivity | rewrite IH; reflexivity].
  - intros Hz.
    destruct (Nat.eq_dec (length a) (length b)) as [E|N].
    + rewrite (cosine_equal_length _ _ E).
      destruct (Req_dec_T _ 0%R) as [_|N]; [reflexivity | contradiction].
    + apply cosine_unequal_length, N.
Qed.

Lemma cosine_similarity_properties_witness :
  VectorStore.calculateCosineSimilarity [1%R; 0%R] [1%R; 0%R] = 1%R
  /\ VectorStore.calculateCosineSimilarity [1%R; 0%R] [0%R; 0%R] = 0%R.
Proof.
  assert (H1 : Embedding.magnitude [1%R; 0%R] = 1%R).
  { rewrite magnitude_sumsq. simpl.
    replace (1 * 1 + (0 * 0 + 0))%R with 1%R by lra. apply sqrt_1. }
  assert (H0 : Embedding.magnitude [0%R; 0%R] = 0%R).
  { rewrite magnitude_sumsq. simpl.
    replace (0 * 0 + (0 * 0 + 0))%R with 0%R by lra. apply sqrt_0. }
  split.
  - apply (proj1 (proj2 (cosine_similarity_properties [1%R; 0%R] [1%R; 0%R]))).
    rewrite H1. apply R1_neq_R0.
  - apply (proj2 (proj2 (cosine_similarity_properties [1%R; 0%R] [0%R; 0%R]))).
    rewrite H1, H0. apply Rmult_0_r.
Defined.

(** C8.  For a count [k], [search] returns at most min(k, number of files)
    results, in non-increasing order of score; they are the first [k]
    entries of a rearrangement of all scored files in which entries of
    equal score keep their order of insertion; on an empty store it returns
    the empty list. *)
Theorem search_returns_top_k
        (files : VectorStore.store) (query : str) (k : nat) (rnd : nat -> Q) :
  let results := VectorStore.search files query (Z.of_nat k) rnd in
  let all := VectorStore.scored (Embedding.generateTextEmbedding query rnd) files in
  (length results <= Nat.min k (length files))%nat
  /\ StronglySorted (fun r1 r2 => (VectorStore.score r2 <= VectorStore.score r1)%R) results
  /\ (exists sorted,
        results = firstn k sorted
        /\ Permutation sorted all
        /\ forall v, filter (VectorStore.sameScore v) sorted
                     = filter (VectorStore.sameScore v) all)
  /\ VectorStore.search [] query (Z.of_nat k) rnd = [].
Proof.
  intros results all.
  assert (E : results = firstn k (VectorStore.sort VectorStore.byScore all)).
  { unfold results, all, VectorStore.search.
    destruct files as [|f files]; [destruct k; reflexivity|].
    cbv zeta. apply slice0_count. }
  split; [|split; [|split]].
  - rewrite E, length_firstn.
    rewrite (Permutation_length (sort_perm all)).
    unfold all, VectorStore.scored. rewrite length_map. lia.
  - rewrite E. apply (firstn_sorted k (sort_sorted all)).
  - exists (VectorStore.sort VectorStore.byScore all).
    split; [exact E|]. split; [apply sort_perm|].
    intros v. apply sort_stable.
  - reflexivity.
Qed.

(* ------------------------------------------------------------------ *)
(** ** Worked examples *)

Section Examples.

(** The matcher: splitting, deleting comments, a back-reference. *)
Example split_on_spaces :
  map string_of_list_ascii (split (re (plus space)) (lit " a  b c ")) = [""; "a"; "b"; "c"; ""].
Proof. reflexivity. Qed.

Example comments_removed :
  string_of_list_ascii (removeAll Eco.commentPattern (lit "x = 1; /* one */ y = 2; // two"))
  = "x = 1;  y = 2; ".
Proof. reflexivity. Qed.

Example recursion_found :
  Eco.hasRecursion (lit "function fact(n) { return n * fact(n - 1); }") = true
  /\ Eco.hasRecursion (lit "function fact(n) { return n * gamma(n - 1); }") = false.
Proof. split; vm_compute; reflexivity. Qed.

Example case_folding :
  test (rei (txt "cors")) (lit "app.use(CORS())") = true
  /\ test (re (txt "cors")) (lit "app.use(CORS())") = false.
Proof. split; reflexivity. Qed.

(** The scenarios of the specification. *)
Example sql_scenario :
  let report := Security.localSecurityAnalysis
                  (lit "db.query('SELECT * FROM users WHERE id=' + req.params.id)") in
  Security.riskLevel report = Security.High
  /\ In "Potential SQL injection vulnerability detected" (Security.threats report).
Proof. vm_compute. tauto. Qed.

Example shell_scenario :
  Security.riskLevel (Security.localSecurityAnalysis (lit "exec(req.body.cmd)"))
  = Security.Critical.
Proof. vm_compute. reflexivity. Qed.

Example sniffers_on_rust :
  Security.detectLanguage (lit "use std::io; fn main() {}") = Security.rust
  /\ Eco.detectLanguage (lit "use std::io; fn main() {}") = Eco.Rust.
Proof. split; vm_compute; reflexivity. Qed.

Example sniffers_on_var :
  Security.detectLanguage (lit "var x = 1;") = Security.unknown
  /\ Eco.detectLanguage (lit "var x = 1;") = Eco.JavaScriptTypeScript.
Proof. split; vm_compute; reflexivity. Qed.

(** The highest score: a Rust text with mutable borrows, caching and a local
    model scores 75 + 5 + 3 + 5, then 5 more for having no issue. *)
Example best_eco_score :
  Eco.ecoScore (Eco.localEcoAnalysis
                  (lit "use std; fn main() { let x = &mut cache; embedding(edge) }"))
  = 93%Z.
Proof. vm_compute. reflexivity. Qed.

Example eco_issues_counted :
  Eco.ecoScore (Eco.localEcoAnalysis (lit "hash(password)")) = 58%Z.
Proof. vm_compute. reflexivity. Qed.

Example duplicate_names :
  map string_of_list_ascii (Eco.duplicateFunctions (lit "function a() {} def a fn b fn b function c"))
  = ["b"; "a"].
Proof. vm_compute. reflexivity. Qed.

Example raw_embedding_signatures :
  firstn 6 (skipn 15 (Embedding.rawEmbedding (lit "const x = 1;") (fun _ => 0.5%Q)))
  = [0.9%Q; (-0.5)%Q; (-0.5)%Q; (-0.5)%Q; (-0.5)%Q; (-0.5)%Q].
Proof. vm_compute. reflexivity. Qed.

End Examples.

(* ------------------------------------------------------------------ *)
(** ** The matcher consumes a prefix of its subject *)

Section MatcherConsumes.

Variable ic : bool.
Variable A : Type.
Implicit Type k : str -> caps -> option A.

Lemma startsWithI_suffix (w s s' : str) :
  startsWithI ic w s = Some s' -> exists pre, s = pre ++ s'.
Proof.
  revert s; induction w as [|a w IH]; intros s H; simpl in H.
  - injection H as <-. exists []; reflexivity.
  - destruct s as [|b s]; [discriminate|].
    destruct (chrEq ic a b); [|discriminate].
    destruct (IH _ H) as [pre ->]. exists (b :: pre); reflexivity.
Qed.

(** The loop of a star, under the same property of its body. *)
Lemma loop_suffix (g : bool) (r : regex) k
      (IH : forall (s : str) (cs : caps) k (a : A),
          m ic r s cs k = Some a ->
          exists pre s' cs', s = pre ++ s' /\ k s' cs' = Some a) :
  forall (fuel : nat) (s : str) (cs : caps) (a : A),
    (fix loop (fuel : nat) (s : str) (cs : caps) {struct fuel} : option A :=
       match fuel with
       | O => k s cs
       | S f =>
           if g then
             match m ic r s cs (fun s1 c1 =>
                     if length s1 <? length s then loop f s1 c1 else None)
             with
             | Some a => Some a
             | None => k s cs
             end
           else
             match k s cs with
             | Some a => Some a
             | None =>
                 m ic r s cs (fun s1 c1 =>
                   if length s1 <? length s then loop f s1 c1 else None)
             end
       end) fuel s cs = Some a ->
    exists pre s' cs', s = pre ++ s' /\ k s' cs' = Some a.
Proof.
  destruct g; induction fuel as [|f IHf]; intros s cs a H;
    try (exists [], s, cs; split; [reflexivity | exact H]).
  - destruct (m ic r s cs _) as [a0|] eqn:E in H.
    + injection H as ->.
      apply IH in E as (pre1 & s1 & c1 & -> & E). cbv beta in E.
      destruct (length s1 <? length (pre1 ++ s1)); [|discriminate].
      apply IHf in E as (pre2 & s2 & c2 & -> & E).
      exists (pre1 ++ pre2), s2, c2. rewrite <- app_assoc; auto.
    + exists [], s, cs; auto.
  - destruct (k s cs) as [a0|] eqn:E0 in H.
    + injection H as ->. exists [], s, cs; auto.
    + apply IH in H as (pre1 & s1 & c1 & -> & E). cbv beta in E.
      destruct (length s1 <? length (pre1 ++ s1)); [|discriminate].
      apply IHf in E as (pre2 & s2 & c2 & -> & E).
      exists (pre1 ++ pre2), s2, c2. rewrite <- app_assoc; auto.
Qed.

(** Whatever [m] returns was returned by its continuation, called on a
    suffix of the subject. *)
Lemma m_suffix (r : regex) :
  forall (s : str) (cs : caps) k (a : A),
    m ic r s cs k = Some a ->
    exists pre s' cs', s = pre ++ s' /\ k s' cs' = Some a.
Proof.
  induction r as [|c|neg p|r1 IH1 r2 IH2|r1 IH1 r2 IH2|g r IH|n r IH|n|];
    intros s cs k a H; simpl in H.
  - exists [], s, cs; auto.
  - destruct s as [|x s]; [discriminate|].
    destruct (chrEq ic c x); [|discriminate].
    exists [x], s, cs; auto.
  - destruct s as [|x s]; [discriminate|].
    destruct (xorb neg (clsMem ic p x)); [|discriminate].
    exists [x], s, cs; auto.
  - apply IH1 in H as (pre1 & s1 & c1 & -> & H).
    apply IH2 in H as (pre2 & s2 & c2 & -> & H).
    exists (pre1 ++ pre2), s2, c2. rewrite <- app_assoc; auto.
  - destruct (m ic r1 s cs k) eqn:E1.
    + injection H as ->. apply (IH1 _ _ _ _ E1).
    + apply (IH2 _ _ _ _ H).
  - apply (loop_suffix g r k IH _ _ _ H).
  - apply IH in H as (pre & s1 & c1 & -> & H).
    exists pre, s1, ((n, firstn (length (pre ++ s1) - length s1) (pre ++ s1)) :: c1); auto.
  - destruct (capture n cs) as [w|].
    + destruct (startsWithI ic w s) as [s'|] eqn:E; [|discriminate].
      destruct (startsWithI_suffix _ _ E) as [pre ->].
      exists pre, s', cs; auto.
    + exists [], s, cs; auto.
  - destruct s; [|discriminate]. exists [], [], cs; auto.
Qed.

Lemma m_seq_chr (c : ascii) (r : regex) (s : str) (cs : caps) k :
  m ic (Seq (Chr c) r) s cs k
  = match s with
    | x :: s' => if chrEq ic c x then m ic r s' cs k else None
    | [] => None
    end.
Proof. destruct s; reflexivity. Qed.


End MatcherConsumes.

Section ExecFacts.

Lemma firstn_prefix (pre s : str) : firstn (length (pre ++ s) - length s) (pre ++ s) = pre.
Proof.
  rewrite length_app.
  replace (length pre + length s - length s) with (length pre + 0) by lia.
  rewrite firstn_app_2. simpl. apply app_nil_r.
Qed.

(** A match at the head splits the subject into the match and the rest. *)
Lemma execAt_split (p : RegExp) (s : str) (mt : Match) :
  execAt p s = Some mt -> before mt = [] /\ s = matched mt ++ rest mt.
Proof.
  unfold execAt. intros H.
  apply m_suffix in H as (pre & s' & cs' & -> & H).
  unfold accept in H. injection H as <-. simpl.
  rewrite firstn_prefix. auto.
Qed.

(** [exec] returns the match found at the head of some suffix, behind the
    units it skipped; no match starts inside the skipped units. *)
Lemma exec_inv (p : RegExp) (s : str) (mt : Match) :
  exec p s = Some mt ->
  exists mt0,
    execAt p (matched mt ++ rest mt) = Some mt0
    /\ matched mt0 = matched mt /\ rest mt0 = rest mt
    /\ s = before mt ++ matched mt ++ rest mt
    /\ forall pre c post, before mt = pre ++ c :: post ->
                          execAt p (c :: post ++ matched mt ++ rest mt) = None.
Proof.
  revert mt; induction s as [|c s IH]; intros mt H; simpl in H.
  - destruct (execAt p []) as [mt0|] eqn:E; [|discriminate].
    injection H as ->.
    destruct (execAt_split _ _ E) as [Hb Hs].
    exists mt. rewrite <- Hs, Hb. repeat split; auto.
    intros [|? ?] ? ? Hx; discriminate Hx.
  - destruct (execAt p (c :: s)) as [mt0|] eqn:E.
    + injection H as ->.
      destruct (execAt_split _ _ E) as [Hb Hs].
      exists mt. rewrite <- Hs, Hb. repeat split; auto.
      intros [|? ?] ? ? Hx; discriminate Hx.
    + destruct (exec p s) as [mt1|] eqn:E1; [|discriminate].
      injection H as <-. simpl.
      destruct (IH _ eq_refl) as (mt0 & H0 & Hm & Hr & Hs & Hskip).
      exists mt0. repeat split; auto.
      * rewrite Hs at 1. reflexivity.
      * intros pre x post Hx.
        destruct pre as [|y pre]; simpl in Hx; injection Hx as -> Hx.
        -- rewrite <- Hx, <- Hs. exact E.
        -- apply (Hskip _ _ _ Hx).
Qed.

Lemma exec_none (p : RegExp) (pre s : str) :
  exec p (pre ++ s) = None -> execAt p s = None.
Proof.
  induction pre as [|c pre IH]; simpl; intros H.
  - destruct s; simpl in H; destruct (execAt p _); auto; discriminate.
  - destruct (execAt p (c :: pre ++ s)); [discriminate|].
    destruct (exec p (pre ++ s)); [discriminate|]. apply IH; reflexivity.
Qed.

End ExecFacts.

(* ------------------------------------------------------------------ *)
(** ** The other methods of the client *)

Section ClientFacts.

Import Runtime Client.

(** *** Line breaks *)







(** *** The local explanation *)


Lemma literal_absent (c : ascii) (w : str) :
  existsb (Ascii.eqb c) w = false -> ~ In c w.
Proof.
  intros H Hin.
  assert (E : existsb (Ascii.eqb c) w = true).
  { apply existsb_exists. exists c. split; [exact Hin | apply Ascii.eqb_refl]. }
  rewrite H in E. discriminate E.
Qed.







End ClientFacts.


(** ** The extraction of the JSON object *)

Section JsonSpanFacts.

Import Runtime Client.
Local Open Scope Z_scope.

Lemma indexOfFrom_absent (c : ascii) (s : str) (i : Z) :
  ~ In c s -> indexOfFrom c s i = -1.
Proof.
  revert i; induction s as [|x s IH]; intros i H; simpl; [reflexivity|].
  destruct (Ascii.eqb_spec x c) as [->|_].
  - exfalso; apply H; left; reflexivity.
  - apply IH. intros Hin; apply H; right; exact Hin.
Qed.

Lemma indexOfFrom_first (c : ascii) (pre post : str) (i : Z) :
  ~ In c pre -> indexOfFrom c (pre ++ c :: post) i = i + Z.of_nat (length pre).
Proof.
  revert i; induction pre as [|x pre IH]; intros i H; simpl.
  - rewrite Ascii.eqb_refl. lia.
  - destruct (Ascii.eqb_spec x c) as [->|_].
    + exfalso; apply H; left; reflexivity.
    + rewrite IH; [lia|]. intros Hin; apply H; right; exact Hin.
Qed.

Lemma lastIndexOfFrom_absent (c : ascii) (s : str) (i found : Z) :
  ~ In c s -> lastIndexOfFrom c s i found = found.
Proof.
  revert i found; induction s as [|x s IH]; intros i found H; simpl; [reflexivity|].
  destruct (Ascii.eqb_spec x c) as [->|_].
  - exfalso; apply H; left; reflexivity.
  - apply IH. intros Hin; apply H; right; exact Hin.
Qed.

Lemma lastIndexOfFrom_last (c : ascii) (pre post : str) (i found : Z) :
  ~ In c post ->
  lastIndexOfFrom c (pre ++ c :: post) i found = i + Z.of_nat (length pre).
Proof.
  revert i found; induction pre as [|x pre IH]; intros i found H; simpl.
  - rewrite Ascii.eqb_refl, lastIndexOfFrom_absent by exact H. lia.
  - rewrite IH by exact H. lia.
Qed.

Lemma substring_prefix (s : str) (n : nat) :
  (n <= length s)%nat -> substring s (Z.of_nat n) 0 = firstn n s.
Proof.
  intros H. unfold substring.
  rewrite (Z.max_l _ 0), (Z.min_l (Z.of_nat n)) by lia.
  rewrite (Z.max_r 0 0), (Z.min_l 0), (Z.min_r (Z.of_nat n) 0), (Z.max_l (Z.of_nat n) 0)
    by lia.
  rewrite Z.sub_0_r, Nat2Z.id. reflexivity.
Qed.

Lemma substring_middle (pre mid post : str) :
  substring (pre ++ mid ++ post) (Z.of_nat (length pre))
            (Z.of_nat (length pre + length mid))
  = mid.
Proof.
  unfold substring. rewrite !length_app.
  rewrite (Z.max_l (Z.of_nat (length pre)) 0), (Z.max_l (Z.of_nat (length pre + length mid)) 0),
    !Z.min_l, Z.max_r by lia.
  replace (Z.to_nat (Z.of_nat (length pre + length mid) - Z.of_nat (length pre)))
    with (length mid + 0)%nat by lia.
  rewrite Nat2Z.id.
  replace (length pre) with (length pre + 0)%nat at 1 by lia.
  rewrite skipn_app, skipn_all2 by lia.
  replace (length pre + 0 - length pre)%nat with 0%nat by lia.
  simpl. rewrite firstn_app_2. simpl. apply app_nil_r.
Qed.

End JsonSpanFacts.

(** X2.  When the generated text holds an object between the first opening
    brace and the last closing brace, [jsonSpan] returns exactly that
    object, whatever stands in front of it and behind it. *)
Theorem jsonSpan_extracts_object (pre body post : str) :
  ~ In "{"%char pre -> ~ In "}"%char post ->
  Client.jsonSpan (pre ++ "{"%char :: body ++ "}"%char :: post)
  = "{"%char :: body ++ ["}"%char].
Proof.
  intros Hpre Hpost. unfold Client.jsonSpan, Runtime.indexOf, Runtime.lastIndexOf.
  rewrite indexOfFrom_first by exact Hpre.
  replace (pre ++ "{"%char :: body ++ "}"%char :: post)
    with ((pre ++ "{"%char :: body) ++ "}"%char :: post) at 2
    by (rewrite <- app_assoc; reflexivity).
  rewrite lastIndexOfFrom_last by exact Hpost.
  replace (pre ++ "{"%char :: body ++ "}"%char :: post)
    with (pre ++ ("{"%char :: body ++ ["}"%char]) ++ post)
    by (simpl; rewrite <- app_assoc; reflexivity).
  replace (0 + Z.of_nat (length (pre ++ "{"%char :: body)) + 1)%Z
    with (Z.of_nat (length pre + length ("{"%char :: body ++ ["}"%char])))
    by (rewrite !length_app; simpl; rewrite length_app; simpl; lia).
  rewrite Z.add_0_l. apply substring_middle.
Qed.

Lemma jsonSpan_extracts_object_witness :
  Client.jsonSpan (lit "Sure: {a: 1} Done.") = lit "{a: 1}".
Proof.
  apply (jsonSpan_extracts_object (lit "Sure: ") (lit "a: 1") (lit " Done.")).
  - apply literal_absent; reflexivity.
  - apply literal_absent; reflexivity.
Defined.

(** X3.  When the generated text holds no closing brace, [jsonSpan] does
    not return a span that starts at the opening brace: [substring] swaps
    its bounds and the result is the text in front of the first opening
    brace, the empty string when there is no brace at all. *)
Theorem jsonSpan_without_closing_brace (pre post : str) :
  ~ In "{"%char pre -> ~ In "}"%char pre -> ~ In "}"%char post ->
  Client.jsonSpan (pre ++ "{"%char :: post) = pre
  /\ Client.jsonSpan pre = [].
Proof.
  intros Hopen Hpre Hpost.
  unfold Client.jsonSpan, Runtime.indexOf, Runtime.lastIndexOf. split.
  - rewrite indexOfFrom_first by exact Hopen.
    rewrite lastIndexOfFrom_absent.
    + rewrite Z.add_0_l. change (-1 + 1)%Z with 0%Z.
      rewrite substring_prefix by (rewrite length_app; lia).
      replace (length pre) with (length pre + 0)%nat by lia.
      rewrite firstn_app_2. simpl. apply app_nil_r.
    + rewrite in_app_iff. intros [H|[H|H]]; [auto | discriminate H | auto].
  - rewrite indexOfFrom_absent by exact Hopen.
    rewrite lastIndexOfFrom_absent by exact Hpre.
    unfold Runtime.substring. simpl Z.max. rewrite !Z.min_l by lia. reflexivity.
Qed.

Lemma jsonSpan_without_closing_brace_witness :
  Client.jsonSpan (lit "I think {riskLevel: High") = lit "I think "
  /\ Client.jsonSpan (lit "I think ") = [].
Proof.
  apply (jsonSpan_without_closing_brace (lit "I think ") (lit "riskLevel: High"));
    apply literal_absent; reflexivity.
Defined.

(** X4.  [normalizeRiskLevel] gives back every level from its own name in
    any letter case, so the levels of the local engine pass through it
    unchanged; an undefined level, the empty string and a string that names
    no level become Medium. *)
Theorem normalizeRiskLevel_round_trip (l : Security.RiskLevel) (s : str) :
  (toLowerCase s = toLowerCase (lit (Client.riskName l)) ->
   Client.normalizeRiskLevel (Some s) = l)
  /\ Client.normalizeRiskLevel None = Security.Medium
  /\ ((forall w, In w ["low"; "med"; "high"; "crit"] ->
                 includes (toLowerCase s) (lit w) = false) ->
      Client.normalizeRiskLevel (Some s) = Security.Medium).
Proof.
  split; [|split].
  - intros H. unfold Client.normalizeRiskLevel. rewrite H.
    destruct l; reflexivity.
  - reflexivity.
  - intros H. unfold Client.normalizeRiskLevel.
    rewrite !H by (simpl; auto 6). reflexivity.
Qed.

Lemma normalizeRiskLevel_round_trip_witness :
  Client.normalizeRiskLevel (Some (lit "CRITICAL")) = Security.Critical
  /\ Client.normalizeRiskLevel (Some (lit "severe")) = Security.Medium.
Proof.
  split.
  - apply (proj1 (normalizeRiskLevel_round_trip Security.Critical (lit "CRITICAL"))).
    reflexivity.
  - apply (proj2 (proj2 (normalizeRiskLevel_round_trip Security.Low (lit "severe")))).
    intros w Hw. simpl in Hw.
    destruct Hw as [<-|[<-|[<-|[<-|[]]]]]; reflexivity.
Defined.

(* ------------------------------------------------------------------ *)
(** ** More on the security report *)

Section ReportFacts.

Import Security Findings.

Lemma run_nothing_fires (request : str) (ds : list detector) (st : state) :
  forallb (fun d => negb (fires d request)) ds = true ->
  fold_left (step request) ds st = st.
Proof.
  revert st; induction ds as [|d ds IH]; intros st H; simpl; [reflexivity|].
  simpl in H. apply andb_true_iff in H as [Hd Hds].
  unfold step at 2. destruct (fires d request); [discriminate Hd|].
  apply IH, Hds.
Qed.

(** A property of the level that every detector keeps is kept by a run. *)
Lemma run_keeps (P : RiskLevel -> Prop) (request : str) (ds : list detector) (st : state) :
  (forall d l, In d ds -> P l -> P (raise d l)) ->
  P (level st) -> P (level (fold_left (step request) ds st)).
Proof.
  revert st; induction ds as [|d ds IH]; intros st Hk H; simpl; [exact H|].
  apply IH.
  - intros d' l Hin. apply Hk. right; exact Hin.
  - rewrite level_step. destruct (fires d request); [|exact H].
    apply Hk; [left; reflexivity | exact H].
Qed.

(** A property that every detector keeps and that the firing detector [d]
    establishes holds at the end of a run in which [d] fires. *)
Lemma run_establishes (P : RiskLevel -> Prop) (request : str)
      (ds : list detector) (d : detector) (st : state) :
  (forall d' l, In d' ds -> P l -> P (raise d' l)) ->
  In d ds -> fires d request = true -> (forall l, P (raise d l)) ->
  P (level (fold_left (step request) ds st)).
Proof.
  intros Hk Hin Hf Hd.
  apply in_split in Hin as (pre & post & ->).
  rewrite fold_left_app. simpl.
  apply run_keeps.
  - intros d' l Hin. apply Hk. apply in_or_app; right; right; exact Hin.
  - rewrite level_step, Hf. apply Hd.
Qed.

Lemma fold_left_single (request : str) (d : detector) (st : state) :
  fold_left (step request) [d] st = step request st d.
Proof. reflexivity. Qed.

Lemma leavesLow_spec (d : detector) (l : RiskLevel) :
  leavesLow d = true -> raise d l <> Low.
Proof.
  unfold leavesLow. rewrite forallb_forall. intros H E.
  assert (Hl : In l levels) by (destruct l; simpl; auto).
  specialize (H l Hl). rewrite E in H. discriminate H.
Qed.

Lemma keepsHigh_spec (d : detector) (l : RiskLevel) :
  keepsHigh d = true -> 2 <= rank l -> 2 <= rank (raise d l).
Proof.
  unfold keepsHigh. rewrite forallb_forall. intros H Hl.
  assert (Hin : In l levels) by (destruct l; simpl; auto).
  specialize (H l Hin).
  apply Nat.leb_le in Hl. rewrite Hl in H. apply Nat.leb_le, H.
Qed.

Lemma detectors_leave_low : forallb leavesLow detectors = true.
Proof. vm_compute. reflexivity. Qed.

Lemma detectors_keep_high : forallb keepsHigh detectors = true.
Proof. vm_compute. reflexivity. Qed.

Lemma fires_somewhere (request : str) (ds : list detector) :
  forallb (fun d => negb (fires d request)) ds = false ->
  exists d, In d ds /\ fires d request = true.
Proof.
  induction ds as [|d ds IH]; simpl; [discriminate|].
  destruct (fires d request) eqn:E; simpl.
  - intros _. exists d; auto.
  - intros H. destruct (IH H) as (d' & Hin & Hf). exists d'; auto.
Qed.

(** What a run has pushed on [threats]. *)
Lemma found_run (request : str) (ds : list detector) (st : state) :
  found (fold_left (step request) ds st)
  = found st ++ flat_map (fun d => if fires d request then threat d request else []) ds.
Proof.
  revert st; induction ds as [|d ds IH]; intros st; simpl.
  - symmetry; apply app_nil_r.
  - rewrite IH. unfold step. destruct (fires d request); simpl.
    + rewrite <- app_assoc. reflexivity.
    + reflexivity.
Qed.

Lemma distinct_NoDup (l : list string) : distinct l = true -> NoDup l.
Proof.
  induction l as [|x l IH]; simpl; intros H; constructor.
  - apply andb_true_iff in H as [H _]. apply negb_true_iff in H.
    intros Hin.
    assert (E : existsb (String.eqb x) l = true).
    { apply existsb_exists. exists x. split; [exact Hin | apply String.eqb_refl]. }
    rewrite H in E. discriminate E.
  - apply andb_true_iff in H as [_ H]. apply IH, H.
Qed.

(** Each detector pushes its label or nothing. *)
Lemma detectors_labels :
  Forall2 (fun d t => forall request, threat d request = [t] \/ threat d request = [])
          detectors labels.
Proof.
  unfold detectors, labels. simpl app.
  repeat (constructor;
          [ intros request;
            try (left; reflexivity);
            unfold frontend, frontendNotes; simpl threat;
            repeat match goal with
                   | |- context [if ?b then _ else _] => destruct b
                   end; auto
          | ]).
  constructor.
Qed.

Lemma pushed_in_labels (request : str) (ds : list detector) (ts : list string) :
  Forall2 (fun d t => forall request, threat d request = [t] \/ threat d request = []) ds ts ->
  forall x, In x (flat_map (fun d => if fires d request then threat d request else []) ds) ->
            In x ts.
Proof.
  induction 1 as [|d t ds ts Hd _ IH]; simpl; intros x Hin; [exact Hin|].
  apply in_app_iff in Hin as [Hin|Hin]; [|right; apply IH, Hin].
  destruct (fires d request); [|destruct Hin].
  destruct (Hd request) as [E|E]; rewrite E in Hin; simpl in Hin; tauto.
Qed.

Lemma pushed_NoDup (request : str) (ds : list detector) (ts : list string) :
  Forall2 (fun d t => forall request, threat d request = [t] \/ threat d request = []) ds ts ->
  NoDup ts ->
  NoDup (flat_map (fun d => if fires d request then threat d request else []) ds).
Proof.
  induction 1 as [|d t ds ts Hd Hds IH]; simpl; intros Hn; [constructor|].
  inversion Hn as [|? ? Hnotin Hn']; subst.
  destruct (fires d request); [|apply IH, Hn'].
  destruct (Hd request) as [E|E]; rewrite E; simpl; [|apply IH, Hn'].
  constructor; [|apply IH, Hn'].
  intros Hin. apply Hnotin. apply (pushed_in_labels request Hds _ Hin).
Qed.

(** The follow-up recommendations leave [found] as it is, keep what was
    advised and add the recommendation of every listed threat found. *)
Lemma followUps_spec (ps : list (string * string)) (st : state) :
  let st' := fold_left (fun s p => recommendFor (fst p) (snd p) s) ps st in
  found st' = found st
  /\ (forall r, In r (advised st) -> In r (advised st'))
  /\ (forall t r, In (t, r) ps -> In t (found st) -> In r (advised st')).
Proof.
  revert st; induction ps as [|[t0 r0] ps IH]; intros st; simpl.
  - repeat split; auto. intros t r [].
  - destruct (IH (recommendFor t0 r0 st)) as (Hf & Hk & Ha).
    assert (Hfound : found (recommendFor t0 r0 st) = found st)
      by (unfold recommendFor; destruct (existsb _ _); reflexivity).
    assert (Hkeep : forall r, In r (advised st) -> In r (advised (recommendFor t0 r0 st))).
    { intros r Hr. unfold recommendFor. destruct (existsb _ _); simpl; [|exact Hr].
      apply in_or_app; left; exact Hr. }
    split; [rewrite Hf; exact Hfound|]. split.
    + intros r Hr. apply Hk, Hkeep, Hr.
    + intros t r [E|Hin] Ht.
      * injection E as -> ->. apply Hk.
        unfold recommendFor.
        assert (Ex : existsb (String.eqb t) (found st) = true).
        { apply existsb_exists. exists t. split; [exact Ht | apply String.eqb_refl]. }
        simpl. rewrite Ex. simpl. apply in_or_app; right; left; reflexivity.
      * apply (Ha t r Hin). rewrite Hfound. exact Ht.
Qed.

Lemma finish_threats (request : str) (st : state) :
  threats (finish request st) = orDefault noThreat (found st).
Proof.
  unfold finish. cbv zeta. cbn [threats].
  destruct (followUps_spec followUps st) as (Hf & _ & _).
  cbv zeta in Hf. rewrite Hf. reflexivity.
Qed.

Lemma finish_recommendations (request : str) (st : state) (t r : string) :
  In (t, r) followUps -> In t (found st) -> In r (recommendations (finish request st)).
Proof.
  intros Hp Ht. unfold finish. cbv zeta. cbn [recommendations].
  destruct (followUps_spec followUps st) as (_ & _ & Ha).
  cbv zeta in Ha. specialize (Ha t r Hp Ht).
  unfold orDefault.
  destruct (advised _); [destruct Ha | exact Ha].
Qed.

Lemma followUps_not_neutral (t r : string) : In (t, r) followUps -> t <> noThreat.
Proof.
  intros Hp ->. unfold followUps in Hp. simpl in Hp.
  repeat (destruct Hp as [Hp|Hp]; [discriminate Hp|]). exact Hp.
Qed.

Unset Implicit Arguments.

Lemma analysis_recommends (request : str) (t r : string) (st : state) :
  In (t, r) followUps ->
  In t (threats (finish request st)) ->
  In r (recommendations (finish request st)).
Proof.
  rewrite finish_threats. intros Hp Ht.
  apply (finish_recommendations request _ Hp).
  unfold orDefault in Ht.
  destruct (found st); [|exact Ht].
  destruct Ht as [E|[]]. symmetry in E.
  destruct (followUps_not_neutral Hp E).
Qed.

Set Implicit Arguments.

Lemma analysis_unfold (request : str) :
  localSecurityAnalysis request = finish request (run detectors request).
Proof. reflexivity. Qed.

End ReportFacts.

(** X5.  The report is Low exactly when no detector fired, and a Low
    report lists the neutral threat and the generic recommendation only. *)
Theorem low_exactly_when_nothing_fires (request : str) :
  (Security.riskLevel (Security.localSecurityAnalysis request) = Security.Low
   <-> forallb (fun d => negb (Security.fires d request)) Security.detectors = true)
  /\ (Security.riskLevel (Security.localSecurityAnalysis request) = Security.Low ->
      Security.threats (Security.localSecurityAnalysis request) = [Security.noThreat]
      /\ Security.recommendations (Security.localSecurityAnalysis request)
         = [Security.genericAdvice]).
Proof.
  assert (Hiff : Security.riskLevel (Security.localSecurityAnalysis request) = Security.Low
                 <-> forallb (fun d => negb (Security.fires d request)) Security.detectors
                     = true).
  { unfold Security.localSecurityAnalysis. rewrite riskLevel_analysisWith.
    unfold Security.run. split.
    - intros HLow.
      destruct (forallb _ Security.detectors) eqn:E; [reflexivity|].
      apply fires_somewhere in E as (d & Hin & Hf).
      exfalso. revert HLow.
      apply (run_establishes (fun l => l <> Security.Low) request
               Security.detectors d Security.initial); auto.
      + intros d' l Hin' _. apply leavesLow_spec.
        pose proof detectors_leave_low as H. rewrite forallb_forall in H. apply H, Hin'.
      + intros l. apply leavesLow_spec.
        pose proof detectors_leave_low as H. rewrite forallb_forall in H. apply H, Hin.
    - intros H. rewrite (run_nothing_fires _ _ _ H). reflexivity. }
  split; [exact Hiff|].
  intros HLow. apply Hiff in HLow.
  unfold Security.localSecurityAnalysis, Security.analysisWith, Security.run.
  rewrite (run_nothing_fires _ _ _ HLow). split; reflexivity.
Qed.

Lemma low_exactly_when_nothing_fires_witness :
  Security.threats (Security.localSecurityAnalysis (lit "print(1 + 1)"))
  = [Security.noThreat]
  /\ Security.recommendations (Security.localSecurityAnalysis (lit "print(1 + 1)"))
     = [Security.genericAdvice].
Proof.
  apply (proj2 (low_exactly_when_nothing_fires (lit "print(1 + 1)"))).
  vm_compute. reflexivity.
Defined.

(** X6.  When a detector fires whose assignment yields High or Critical
    from every level (the sensitive-data, SQL, XSS, command-injection,
    unsafe-block and deserialisation checks), the report is High or
    Critical: no later detector brings the level below High. *)
Theorem severe_finding_keeps_report_high (request : str) (d : Security.detector) :
  In d Security.detectors ->
  Security.fires d request = true ->
  (forall l, 2 <= Security.rank (Security.raise d l)) ->
  2 <= Security.rank (Security.riskLevel (Security.localSecurityAnalysis request)).
Proof.
  intros Hin Hf Hd.
  unfold Security.localSecurityAnalysis. rewrite riskLevel_analysisWith.
  unfold Security.run.
  apply (run_establishes (fun l => 2 <= Security.rank l) request
           Security.detectors d Security.initial); auto.
  intros d' l Hin'. apply keepsHigh_spec.
  pose proof detectors_keep_high as H. rewrite forallb_forall in H. apply H, Hin'.
Qed.

Lemma severe_finding_keeps_report_high_witness :
  2 <= Security.rank
         (Security.riskLevel
            (Security.localSecurityAnalysis (lit "select * from t where x = input"))).
Proof.
  apply (@severe_finding_keeps_report_high
           (lit "select * from t where x = input") Security.sqlInjection).
  - unfold Security.detectors. simpl. auto 10.
  - vm_compute. reflexivity.
  - intros l. simpl. lia.
Defined.

(** X7.  When the command-injection check fires the report is Critical,
    unless the deserialisation check of the Python block fires afterwards,
    which assigns High. *)
Theorem command_injection_is_critical (request : str) :
  Security.fires Security.commandInjection request = true ->
  Security.riskLevel (Security.localSecurityAnalysis request)
  = if Security.fires Security.pyDeserialize request
    then Security.High else Security.Critical.
Proof.
  intros Hf.
  unfold Security.localSecurityAnalysis. rewrite riskLevel_analysisWith.
  unfold Security.run.
  change Security.detectors
    with (firstn 12 Security.detectors
          ++ [Security.commandInjection]
          ++ firstn 9 (skipn 13 Security.detectors)
          ++ [Security.pyDeserialize]
          ++ skipn 23 Security.detectors).
  rewrite !fold_left_app.
  rewrite !fold_left_single.
  set (st1 := Security.step request _ Security.commandInjection).
  assert (H1 : Security.level st1 = Security.Critical).
  { unfold st1. rewrite level_step, Hf. reflexivity. }
  set (st2 := fold_left (Security.step request) (firstn 9 _) st1).
  assert (H2 : Security.level st2 = Security.Critical).
  { unfold st2.
    apply (run_keeps (fun l => l = Security.Critical)); [|exact H1].
    intros d l Hin ->.
    assert (K : forallb Findings.keepsCritical
                        (firstn 9 (skipn 13 Security.detectors)) = true)
      by (vm_compute; reflexivity).
    rewrite forallb_forall in K. apply level_eqb_eq, K, Hin. }
  set (st3 := Security.step request st2 Security.pyDeserialize).
  assert (H3 : Security.level st3
               = if Security.fires Security.pyDeserialize request
                 then Security.High else Security.Critical).
  { unfold st3. rewrite level_step, H2.
    destruct (Security.fires Security.pyDeserialize request); reflexivity. }
  apply (run_keeps (fun l => l = if Security.fires Security.pyDeserialize request
                                 then Security.High else Security.Critical));
    [|exact H3].
  intros d l Hin ->.
  simpl in Hin. destruct Hin as [<-|[<-|[<-|[]]]];
    destruct (Security.fires Security.pyDeserialize request); reflexivity.
Qed.

Lemma command_injection_is_critical_witness :
  Security.riskLevel (Security.localSecurityAnalysis (lit "exec(req.body.cmd)"))
  = Security.Critical.
Proof.
  apply (command_injection_is_critical (lit "exec(req.body.cmd)")).
  vm_compute. reflexivity.
Defined.

(** X8.  No threat is listed twice in a report. *)
Theorem threats_listed_once (request : str) :
  NoDup (Security.threats (Security.localSecurityAnalysis request)).
Proof.
  unfold Security.localSecurityAnalysis, Security.analysisWith.
  rewrite finish_threats.
  unfold Security.run. rewrite found_run.
  change (Security.found Security.initial) with (@nil string). rewrite app_nil_l.
  unfold Security.orDefault.
  match goal with
  | |- context [flat_map ?f ?l] => destruct (flat_map f l) eqn:E
  end.
  - repeat constructor. intros [].
  - rewrite <- E.
    apply (pushed_NoDup request detectors_labels).
    apply distinct_NoDup. vm_compute. reflexivity.
Qed.


Unset Implicit Arguments.

(** X10.  Each threat that has a follow-up recommendation (SQL injection,
    XSS, hard-coded secrets, IDOR, command injection and the four Rust
    findings) is listed together with that recommendation. *)
Theorem listed_threat_has_its_recommendation (request : str) (t r : string) :
  In (t, r) Security.followUps ->
  In t (Security.threats (Security.localSecurityAnalysis request)) ->
  In r (Security.recommendations (Security.localSecurityAnalysis request)).
Proof.
  rewrite analysis_unfold. apply analysis_recommends.
Qed.

Set Implicit Arguments.

Lemma listed_threat_has_its_recommendation_witness :
  In "Use parameterized queries or an ORM instead of string concatenation"
     (Security.recommendations
        (Security.localSecurityAnalysis (lit "select * from t where x = input"))).
Proof.
  apply (@listed_threat_has_its_recommendation
           (lit "select * from t where x = input")
           "Potential SQL injection vulnerability detected").
  - left; reflexivity.
  - vm_compute. auto.
Defined.

(* ------------------------------------------------------------------ *)
(** ** More on the eco report *)

Section EcoReportFacts.

Import Eco.
Local Open Scope Z_scope.

Lemma rule_issues (guard : bool) (i s : list string) (delta : Z) (a : acc) :
  issues (rule guard i s delta a) = issues a ++ (if guard then i else []).
Proof. unfold rule; destruct guard; simpl; [reflexivity | symmetry; apply app_nil_r]. Qed.

(** [quiet lo a]: as long as no issue was pushed the score is at least
    [lo]. *)
Definition quiet (lo : Z) (a : acc) : Prop := issues a = [] -> lo <= baseScore a.

Lemma quiet_issue (guard : bool) (x : string) (i s : list string) (delta lo : Z) (a : acc) :
  quiet lo a -> quiet lo (rule guard (x :: i) s delta a).
Proof.
  unfold quiet. rewrite rule_issues, rule_score. intros H E.
  apply app_eq_nil in E as [Ea Eg].
  destruct guard; [discriminate Eg|]. specialize (H Ea). lia.
Qed.

Lemma quiet_silent (guard : bool) (s : list string) (delta lo : Z) (a : acc) :
  quiet (lo - Z.min 0 delta) a -> quiet lo (rule guard [] s delta a).
Proof.
  unfold quiet. rewrite rule_issues, rule_score. intros H E.
  apply app_eq_nil in E as [Ea _]. specialize (H Ea).
  destruct guard; lia.
Qed.

Lemma quiet_start (lo score : Z) : lo <= score -> quiet lo (mkAcc score [] []).
Proof. unfold quiet; simpl; auto. Qed.

Ltac quiet_steps :=
  repeat first
    [ apply quiet_issue
    | apply quiet_silent
    | match goal with
      | |- quiet _ (if ?b then _ else _) => destruct b
      end ].

Lemma aiRule_quiet (code : str) (lo : Z) (a : acc) :
  quiet lo a -> quiet lo (aiRule code a).
Proof.
  intros H. unfold aiRule. cbv zeta.
  quiet_steps; simpl Z.min; rewrite ?Z.sub_0_r; quiet_steps;
    simpl Z.min; rewrite ?Z.sub_0_r; exact H.
Qed.

Lemma languageRules_quiet (l : Language) (code : str) (lo : Z) (a : acc) :
  quiet (lo + match l with Java => 3 | _ => 0 end) a ->
  quiet lo (languageRules l code a).
Proof.
  intros H.
  destruct l; simpl languageRules;
    unfold javascriptRules, pythonRules, javaRules, rustRules, cppRules; cbv zeta;
    quiet_steps; simpl Z.min;
    unfold quiet in *; intros E; specialize (H E); lia.
Qed.

(** Without an issue the rules leave at least 65 points. *)
Lemma rules_quiet (code : str) : quiet 65 (rules code).
Proof.
  unfold rules; cbv zeta.
  unfold stringConcatRule, mediaRule, cryptoRule, concatRule, recursionRule,
    nestedRule, duplicateRule, redundancyRule; cbv zeta.
  apply quiet_issue.
  apply languageRules_quiet.
  do 5 apply quiet_issue.
  apply aiRule_quiet.
  do 2 apply quiet_issue.
  apply quiet_start.
  destruct (detectLanguage code); simpl; lia.
Qed.

Lemma rule_grows (guard : bool) (i s : list string) (delta : Z) (a : acc) :
  issues a <> [] -> issues (rule guard i s delta a) <> [].
Proof.
  rewrite rule_issues. intros H E. apply app_eq_nil in E as [E _]. contradiction.
Qed.

Ltac grow_steps :=
  repeat first
    [ apply rule_grows
    | match goal with
      | |- issues (if ?b then _ else _) <> [] => destruct b
      end ].

Lemma languageRules_grows (l : Language) (code : str) (a : acc) :
  issues a <> [] -> issues (languageRules l code a) <> [].
Proof.
  intros H. destruct l; simpl languageRules;
    unfold javascriptRules, pythonRules, javaRules, rustRules, cppRules; cbv zeta;
    grow_steps; exact H.
Qed.

(** A nested loop leaves an issue behind. *)
Lemma nested_is_an_issue (code : str) :
  more (nestedLoopCount code) 0 = true -> issues (rules code) <> [].
Proof.
  intros Hn. unfold rules; cbv zeta.
  unfold stringConcatRule, mediaRule, cryptoRule, concatRule, recursionRule. cbv zeta.
  apply rule_grows. apply languageRules_grows. do 4 apply rule_grows.
  unfold nestedRule. cbv zeta. rewrite rule_issues, Hn.
  intros E. apply app_eq_nil in E as [_ E]. discriminate E.
Qed.

(** The neutral entry is not among the issues the rules push. *)
Definition named (a : acc) : Prop := ~ In noIssue (issues a).

Lemma named_rule (guard : bool) (i s : list string) (delta : Z) (a : acc) :
  ~ In noIssue i -> named a -> named (rule guard i s delta a).
Proof.
  unfold named. rewrite rule_issues, in_app_iff. intros Hi Ha [H|H]; [auto|].
  destruct guard; [auto | destruct H].
Qed.

Ltac not_neutral :=
  solve [ intros []
        | intros [E|[]]; cbn in E; discriminate E
        | intros [E|[]]; unfold show in E;
          destruct (Nat.to_uint _); cbn in E; discriminate E ].

Ltac named_steps :=
  repeat first
    [ apply named_rule; [not_neutral|]
    | match goal with
      | |- named (if ?b then _ else _) => destruct b
      end ].

Lemma rules_named (code : str) : named (rules code).
Proof.
  unfold rules; cbv zeta.
  unfold stringConcatRule, mediaRule, cryptoRule, concatRule, recursionRule,
    nestedRule, duplicateRule, redundancyRule; cbv zeta.
  apply named_rule; [not_neutral|].
  assert (L : forall a, named a -> named (languageRules (detectLanguage code) code a)).
  { intros a Ha. destruct (detectLanguage code); simpl languageRules;
      unfold javascriptRules, pythonRules, javaRules, rustRules, cppRules; cbv zeta;
      named_steps; exact Ha. }
  apply L.
  do 5 (apply named_rule; [not_neutral|]).
  assert (A : forall a, named a -> named (aiRule code a)).
  { intros a Ha. unfold aiRule. cbv zeta. named_steps; exact Ha. }
  apply A.
  do 2 (apply named_rule; [not_neutral|]).
  intros [].
Qed.

(** The score and the issues before the clamp. *)
Lemma computed_quiet (code : str) :
  snd (fst (computed code)) = [] -> 57 <= fst (fst (computed code)).
Proof.
  pose proof (rules_quiet code) as Hq. pose proof (@nested_is_an_issue code) as Hn.
  unfold computed; cbv zeta. unfold quiet in Hq.
  destruct (more (length (lines code)) 500); simpl.
  - intros E. apply app_eq_nil in E as [_ E]. discriminate E.
  - intros E. specialize (Hq E). rewrite E in *. simpl length.
    destruct (more (nestedLoopCount code) 0); [exfalso; apply Hn; auto|].
    destruct (5000 <? _), (10000 <? _); lia.
Qed.

Lemma computed_loud (code : str) :
  snd (fst (computed code)) <> [] -> fst (fst (computed code)) <= 83.
Proof.
  pose proof (rules_le code) as Hle.
  unfold computed; cbv zeta.
  destruct (more (length (lines code)) 500); simpl; intros Hne.
  - destruct (more (nestedLoopCount code) 0), (5000 <? _), (10000 <? _); lia.
  - destruct (issues (rules code)) as [|x l]; [contradiction|].
    simpl length.
    destruct (more (nestedLoopCount code) 0), (5000 <? _), (10000 <? _); lia.
Qed.

Lemma computed_named (code : str) : ~ In noIssue (snd (fst (computed code))).
Proof.
  pose proof (rules_named code) as Hn. unfold named in Hn.
  unfold computed; cbv zeta.
  destruct (more (length (lines code)) 500); simpl; [|exact Hn].
  rewrite in_app_iff. intros [H|[E|[]]]; [auto | discriminate E].
Qed.

End EcoReportFacts.

(** X11.  A report without issue (it lists the neutral entry only) scores
    between 62 and 93, the clamp never acting on it; a report with an issue
    scores between 35 and 83. *)
Theorem eco_score_bands (code : str) :
  (Eco.ecoIssues (Eco.localEcoAnalysis code) = [Eco.noIssue] ->
   (62 <= Eco.ecoScore (Eco.localEcoAnalysis code) <= 93)%Z
   /\ Eco.ecoScore (Eco.localEcoAnalysis code)
      = (fst (fst (Eco.computed code)) + 5)%Z)
  /\ (Eco.ecoIssues (Eco.localEcoAnalysis code) <> [Eco.noIssue] ->
      (35 <= Eco.ecoScore (Eco.localEcoAnalysis code) <= 83)%Z).
Proof.
  pose proof (computed_le code) as Hle.
  pose proof (computed_quiet code) as Hq.
  pose proof (computed_loud code) as Hl.
  pose proof (computed_named code) as Hn.
  unfold Eco.localEcoAnalysis.
  destruct (Eco.computed code) as [[score issues] suggestions].
  simpl in Hle, Hq, Hl, Hn.
  destruct issues as [|x issues]; simpl.
  - specialize (Hq eq_refl). unfold Eco.clamp. split.
    + intros _. lia.
    + intros H. contradiction H. reflexivity.
  - assert (Hs : (score <= 83)%Z) by (apply Hl; discriminate).
    unfold Eco.clamp. split.
    + intros E. injection E as -> _. exfalso. apply Hn. left; reflexivity.
    + intros _. lia.
Qed.

Lemma eco_score_bands_witness :
  (62 <= Eco.ecoScore (Eco.localEcoAnalysis (lit "x = 1")) <= 93)%Z
  /\ (35 <= Eco.ecoScore (Eco.localEcoAnalysis (lit "hash(password)")) <= 83)%Z.
Proof.
  split.
  - apply (proj1 (eco_score_bands (lit "x = 1"))). vm_compute. reflexivity.
  - apply (proj2 (eco_score_bands (lit "hash(password)"))). vm_compute. discriminate.
Defined.

(** X12.  The two lists of an eco report are never empty, and the issue
    count of its details is the length of the list it returns: it counts
    the neutral entry, so it is 1 and not 0 on a text without issue. *)
Theorem eco_report_lists_nonempty (code : str) :
  Eco.ecoIssues (Eco.localEcoAnalysis code) <> []
  /\ Eco.ecoSuggestions (Eco.localEcoAnalysis code) <> []
  /\ Eco.issueCount (Eco.details (Eco.localEcoAnalysis code))
     = length (Eco.ecoIssues (Eco.localEcoAnalysis code))
  /\ 1 <= Eco.issueCount (Eco.details (Eco.localEcoAnalysis code)).
Proof.
  unfold Eco.localEcoAnalysis.
  destruct (Eco.computed code) as [[score issues] suggestions].
  destruct issues as [|x issues], suggestions as [|y suggestions]; simpl;
    repeat split; try discriminate; lia.
Qed.

(* ------------------------------------------------------------------ *)
(** ** More on the embedding and the index *)

Section BoundFacts.

Import Embedding VectorStore.
Local Open Scope R_scope.

Lemma in_sumsq (x : R) (v : list R) : In x v -> x * x <= sumsq v.
Proof.
  induction v as [|y v IH]; simpl; [intros []|].
  pose proof (sumsq_nonneg v) as Hv.
  intros [->|H].
  - lra.
  - specialize (IH H). pose proof (Rle_0_sqr y) as Hy. unfold Rsqr in Hy. lra.
Qed.

Lemma magnitude_one_sumsq (v : list R) : magnitude v = 1 -> sumsq v = 1.
Proof.
  rewrite magnitude_sumsq. intros H.
  rewrite <- (sqrt_sqrt (sumsq v)) by apply sumsq_nonneg.
  rewrite H. lra.
Qed.

Lemma square_le_one (x : R) : x * x <= 1 -> -1 <= x <= 1.
Proof. intros H. split; nra. Qed.








End BoundFacts.

Section BuiltFacts.

Import Embedding VectorStore Index.
Local Open Scope R_scope.

Lemma embedding_unit (text : str) (rnd : nat -> Q) :
  length (generateTextEmbedding text rnd) = 32%nat
  /\ magnitude (generateTextEmbedding text rnd) = 1.
Proof.
  unfold generateTextEmbedding. split.
  - rewrite normalise_length, length_map, rawEmbedding_values. reflexivity.
  - apply normalise_unit, Rgt_not_eq, Rlt_gt, raw_magnitude_pos.
Qed.

Lemma built_files (files : store) :
  built files ->
  forall f, In f files ->
            exists text rnd, content f = text
                             /\ embedding f = Some (generateTextEmbedding text rnd).
Proof.
  induction 1 as [|p c rnd files _ IH]; [intros f []|].
  unfold addFile. intros f Hin. apply in_app_iff in Hin as [Hin|[<-|[]]].
  - apply IH, Hin.
  - exists c, rnd. split; reflexivity.
Qed.

(** Between two vectors of magnitude 1 and the same length the similarity
    is the dot product. *)
Lemma cosine_of_units (a b : list R) :
  length a = length b -> magnitude a = 1 -> magnitude b = 1 ->
  calculateCosineSimilarity a b = dot a b.
Proof.
  intros E Ha Hb. rewrite (cosine_equal_length _ _ E), Ha, Hb.
  destruct (Req_dec_T (1 * 1) 0) as [H|_]; [lra|]. field.
Qed.

End BuiltFacts.

(** X13.  Every entry of an embedding lies between -1 and 1. *)
Theorem embedding_entries_bounded (text : str) (rnd : nat -> Q) (x : R) :
  In x (Embedding.generateTextEmbedding text rnd) -> (-1 <= x <= 1)%R.
Proof.
  intros H. apply square_le_one.
  rewrite <- (@magnitude_one_sumsq _ (proj2 (embedding_unit text rnd))).
  apply in_sumsq, H.
Qed.

Lemma embedding_entries_bounded_witness :
  (-1 <= hd 0%R (Embedding.generateTextEmbedding (lit "let x") (fun _ => 0.25%Q)) <= 1)%R.
Proof.
  apply (@embedding_entries_bounded (lit "let x") (fun _ => 0.25%Q)).
  pose proof (proj1 (embedding_unit (lit "let x") (fun _ => 0.25%Q))) as Hlen.
  destruct (Embedding.generateTextEmbedding (lit "let x") (fun _ => 0.25%Q));
    [discriminate Hlen | left; reflexivity].
Defined.

(** X14.  [normalizeValue] maps the range from [min] to [max] onto the
    range from -1 to 1: the ends go to -1 and 1 and a value between them
    goes between -1 and 1. *)
Theorem normalizeValue_range (value min max : Q) :
  (min < max)%Q -> (min <= value <= max)%Q ->
  (-1 <= Embedding.normalizeValue value min max <= 1)%Q
  /\ (Embedding.normalizeValue min min max == -1)%Q
  /\ (Embedding.normalizeValue max min max == 1)%Q.
Proof.
  intros Hlt [Hlo Hhi].
  assert (Hd : (0 < max - min)%Q) by Lqa.lra.
  unfold Embedding.normalizeValue, Embedding.orOne.
  destruct (Qeq_bool (max - min) 0) eqn:E.
  - apply Qeq_bool_iff in E. Lqa.lra.
  - assert (H0 : (0 <= (value - min) / (max - min))%Q)
      by (apply Qle_shift_div_l; [exact Hd | Lqa.lra]).
    assert (H1 : ((value - min) / (max - min) <= 1)%Q)
      by (apply Qle_shift_div_r; [exact Hd | Lqa.lra]).
    split; [Lqa.lra|]. split.
    + setoid_replace (min - min)%Q with 0%Q by ring.
      unfold Qdiv. rewrite Qmult_0_l. reflexivity.
    + setoid_replace ((max - min) / (max - min))%Q with 1%Q
        by (field; Lqa.lra).
      reflexivity.
Qed.

Lemma normalizeValue_range_witness :
  (-1 <= Embedding.normalizeValue 2500 0 10000 <= 1)%Q.
Proof.
  apply (@normalizeValue_range 2500 0 10000).
  - reflexivity.
  - split; intros H; discriminate H.
Defined.




(** X17.  [getFiles] returns the paths and contents that were added, in
    the order of the additions and whatever the noise of their embeddings;
    after [clear] it returns nothing and [search] finds nothing. *)
Theorem getFiles_returns_what_was_added
        (entries : list (str * str * (nat -> Q))) (files : VectorStore.store)
        (query : str) (limit : Z) (rnd : nat -> Q) :
  Index.getFiles
    (fold_left (fun fs e => VectorStore.addFile (fst (fst e)) (snd (fst e)) (snd e) fs)
               entries files)
  = Index.getFiles files ++ map fst entries
  /\ Index.getFiles (VectorStore.clear files) = []
  /\ VectorStore.search (VectorStore.clear files) query limit rnd = [].
Proof.
  split; [|split; reflexivity].
  revert files; induction entries as [|[[p c] n] entries IH]; intros files; simpl.
  - symmetry; apply app_nil_r.
  - rewrite IH. unfold VectorStore.addFile, Index.getFiles.
    rewrite map_app, <- app_assoc. reflexivity.
Qed.

(** X18.  In a store grown by [addFile] only, every file carries an
    embedding of 32 entries and magnitude 1, so the score [search] gives it
    is the plain dot product of the query embedding and its own: the guards
    of [calculateCosineSimilarity] (unequal lengths, zero denominator) and
    the default for a missing embedding are never taken. *)
Theorem built_store_scores_are_dot_products
        (files : VectorStore.store) (query : str) (rnd : nat -> Q) (f : VectorStore.file) :
  Index.built files -> In f files ->
  exists e,
    VectorStore.embedding f = Some e
    /\ length e = 32%nat
    /\ Embedding.magnitude e = 1%R
    /\ VectorStore.calculateCosineSimilarity
         (Embedding.generateTextEmbedding query rnd) (VectorStore.embeddingOf f)
       = VectorStore.dot (Embedding.generateTextEmbedding query rnd) e.
Proof.
  intros Hb Hin.
  destruct (@built_files _ Hb f Hin) as (text & noise & _ & He).
  destruct (embedding_unit text noise) as [Hlen Hmag].
  destruct (embedding_unit query rnd) as [Hqlen Hqmag].
  exists (Embedding.generateTextEmbedding text noise).
  repeat split; auto.
  unfold VectorStore.embeddingOf. rewrite He.
  apply cosine_of_units; congruence.
Qed.

Lemma built_store_scores_are_dot_products_witness :
  exists e,
    VectorStore.embedding
      (VectorStore.mkFile (lit "a.js") (lit "let a")
         (Some (Embedding.generateTextEmbedding (lit "let a") (fun _ => 0.5%Q))))
    = Some e
    /\ length e = 32%nat
    /\ Embedding.magnitude e = 1%R
    /\ VectorStore.calculateCosineSimilarity
         (Embedding.generateTextEmbedding (lit "a") (fun _ => 0.1%Q))
         (VectorStore.embeddingOf
            (VectorStore.mkFile (lit "a.js") (lit "let a")
               (Some (Embedding.generateTextEmbedding (lit "let a") (fun _ => 0.5%Q)))))
       = VectorStore.dot (Embedding.generateTextEmbedding (lit "a") (fun _ => 0.1%Q)) e.
Proof.
  apply (@built_store_scores_are_dot_products
           (VectorStore.addFile (lit "a.js") (lit "let a") (fun _ => 0.5%Q) [])).
  - apply Index.built_add, Index.built_empty.
  - left; reflexivity.
Defined.



(* ------------------------------------------------------------------ *)
(** ** The files the folder loader reads *)

Section FilterFacts.

Variable ic : bool.
Variable A : Type.
Implicit Type k : str -> caps -> option A.

(** A literal word matches the units that equal it one by one. *)
Lemma chars_inv (w : str) :
  forall (s : str) (cs : caps) k (a : A),
    m ic (chars w) s cs k = Some a ->
    exists w' s', s = w' ++ s'
                  /\ Forall2 (fun c x => chrEq ic c x = true) w w'
                  /\ k s' cs = Some a.
Proof.
  induction w as [|c w IH]; intros s cs k a H.
  - exists [], s. auto.
  - assert (H' : m ic (Seq (Chr c) (chars w)) s cs k = Some a).
    { destruct w; [|exact H]. simpl in *. exact H. }
    rewrite m_seq_chr in H'.
    destruct s as [|x s]; [discriminate|].
    destruct (chrEq ic c x) eqn:E; [|discriminate].
    destruct (IH _ _ _ _ H') as (w' & s' & -> & Hw & Hk).
    exists (x :: w'), s'. auto.
Qed.

Lemma chars_here (w w' : str) :
  Forall2 (fun c x => chrEq ic c x = true) w w' ->
  forall (s : str) (cs : caps) k, m ic (chars w) (w' ++ s) cs k = k s cs.
Proof.
  induction 1 as [|c x w w' E _ IH]; intros s cs k; [reflexivity|].
  transitivity (m ic (Seq (Chr c) (chars w)) ((x :: w') ++ s) cs k).
  { destruct w; [|reflexivity]. reflexivity. }
  rewrite m_seq_chr. simpl. rewrite E. apply IH.
Qed.

(** An alternation succeeds exactly where one of its branches does. *)
Lemma alts_inv (l : list regex) :
  l <> [] ->
  forall (s : str) (cs : caps) k (a : A),
    m ic (alts l) s cs k = Some a ->
    exists r, In r l /\ m ic r s cs k = Some a.
Proof.
  induction l as [|r l IH]; intros Hl s cs k a H; [contradiction|].
  destruct l as [|r' l].
  - exists r. split; [left; reflexivity | exact H].
  - change (alts (r :: r' :: l)) with (Alt r (alts (r' :: l))) in H.
    simpl m in H.
    destruct (m ic r s cs k) as [a'|] eqn:E.
    + exists r. split; [left; reflexivity|]. rewrite E. exact H.
    + destruct (IH ltac:(discriminate) _ _ _ _ H) as (r0 & Hin & H0).
      exists r0. split; [right; exact Hin | exact H0].
Qed.

Lemma alts_here (l : list regex) (r : regex) (s : str) (cs : caps) k :
  In r l -> isSome (m ic r s cs k) = true -> isSome (m ic (alts l) s cs k) = true.
Proof.
  induction l as [|r0 l IH]; intros Hin H; [destruct Hin|].
  destruct l as [|r' l].
  - destruct Hin as [->|[]]. exact H.
  - change (alts (r0 :: r' :: l)) with (Alt r0 (alts (r' :: l))).
    simpl m.
    destruct (m ic r0 s cs k) as [a'|] eqn:E; [reflexivity|].
    destruct Hin as [->|Hin]; [rewrite E in H; discriminate H|].
    apply IH; assumption.
Qed.

(** A group followed by the end of the subject. *)
Lemma m_grp_eol (n : nat) (r : regex) (s : str) (cs : caps) k :
  m ic (Seq (Grp n r) Eol) s cs k
  = m ic r s cs (fun s1 c1 =>
      match s1 with
      | [] => k s1 ((n, firstn (length s - length s1) s) :: c1)
      | _ :: _ => None
      end).
Proof. reflexivity. Qed.

End FilterFacts.

Section FoldFacts.

Lemma in_units (c : ascii) : In c (map ascii_of_nat (seq 0 256)).
Proof.
  rewrite <- (ascii_nat_embedding c). apply in_map, in_seq.
  pose proof (nat_ascii_bounded c). lia.
Qed.

(** Two units agree without case exactly when their lower-case forms agree. *)
Lemma chrEq_lower (c x : ascii) :
  chrEq true c x = Ascii.eqb (lowerChar c) (lowerChar x).
Proof.
  assert (H : forallb (fun c => forallb (fun x =>
                Bool.eqb (chrEq true c x) (Ascii.eqb (lowerChar c) (lowerChar x)))
                (map ascii_of_nat (seq 0 256))) (map ascii_of_nat (seq 0 256)) = true) by (vm_compute; reflexivity).
  rewrite forallb_forall in H. specialize (H c (in_units c)).
  rewrite forallb_forall in H. specialize (H x (in_units x)).
  apply Bool.eqb_prop in H. exact H.
Qed.

Lemma folds_iff (w e : str) :
  Forall2 (fun c x => chrEq true c x = true) w e <-> toLowerCase e = toLowerCase w.
Proof.
  split.
  - induction 1 as [|c x w e E _ IH]; [reflexivity|].
    simpl. rewrite chrEq_lower in E. apply Ascii.eqb_eq in E. congruence.
  - revert e; induction w as [|c w IH]; intros [|x e] H; try discriminate H.
    + constructor.
    + simpl in H. injection H as Hx He. constructor; [|apply IH; exact He].
      rewrite chrEq_lower. apply Ascii.eqb_eq. congruence.
Qed.

Lemma only_dot_folds_to_dot (x : ascii) : chrEq true "." x = true -> x = "."%char.
Proof.
  assert (H : forallb (fun x => implb (chrEq true "." x) (Ascii.eqb x "."))
                (map ascii_of_nat (seq 0 256)) = true) by (vm_compute; reflexivity).
  rewrite forallb_forall in H. specialize (H x (in_units x)).
  intros E. rewrite E in H. apply Ascii.eqb_eq. exact H.
Qed.

Lemma extensions_lower (ext : string) :
  In ext Index.sourceExtensions -> toLowerCase (lit ext) = lit ext.
Proof.
  assert (H : Forall (fun ext => toLowerCase (lit ext) = lit ext) Index.sourceExtensions).
  { repeat constructor. }
  rewrite Forall_forall in H. apply H.
Qed.

(** The extension test: a dot, one of the extensions in either case, the end. *)
Lemma sourceFileName_spec (name : str) :
  test Index.sourceFileName name = true <->
  exists base e ext,
    name = base ++ lit "." ++ e
    /\ In ext Index.sourceExtensions /\ toLowerCase e = lit ext.
Proof.
  split.
  - unfold test. destruct (exec Index.sourceFileName name) as [mt|] eqn:E; [|discriminate].
    intros _. apply exec_inv in E as (mt0 & H & _ & _ & Hs & _).
    unfold execAt in H.
    change (pattern Index.sourceFileName)
      with (Seq (Chr ".") (Seq (Grp 1 (words Index.sourceExtensions)) Eol)) in H.
    change (ignoreCase Index.sourceFileName) with true in H.
    rewrite m_seq_chr in H.
    destruct (matched mt ++ rest mt) as [|x s] eqn:Em; [discriminate|].
    destruct (chrEq true "." x) eqn:Ex; [|discriminate].
    apply only_dot_folds_to_dot in Ex. subst x.
    rewrite m_grp_eol in H. unfold words in H.
    apply alts_inv in H as (r & Hr & H); [|discriminate].
    apply in_map_iff in Hr as (ext & <- & Hext).
    apply chars_inv in H as (e & s' & -> & Hw & H).
    destruct s' as [|? ?]; [|discriminate].
    exists (before mt), e, ext. rewrite app_nil_r in Hs. split; [exact Hs|].
    split; [exact Hext|].
    apply folds_iff in Hw. rewrite Hw. apply extensions_lower; exact Hext.
  - intros (base & e & ext & -> & Hext & He).
    unfold test.
    destruct (exec Index.sourceFileName (base ++ lit "." ++ e)) eqn:E; [reflexivity|].
    apply exec_none in E. exfalso.
    unfold execAt in E.
    change (pattern Index.sourceFileName)
      with (Seq (Chr ".") (Seq (Grp 1 (words Index.sourceExtensions)) Eol)) in E.
    change (ignoreCase Index.sourceFileName) with true in E.
    change (lit "." ++ e) with ("."%char :: e) in E.
    rewrite m_seq_chr in E. change (chrEq true "." ".") with true in E.
    cbv iota in E. rewrite m_grp_eol in E.
    match type of E with
    | m true ?r ?s ?cs ?k = None =>
        pose proof (@alts_here true _ (map txt Index.sourceExtensions) (txt ext) s cs k) as Hh
    end.
    unfold words in E. rewrite E in Hh.
    assert (Hf : false = true); [|discriminate Hf].
    apply Hh; [apply in_map; exact Hext|].
    unfold txt. rewrite <- (app_nil_r e) at 1.
    rewrite chars_here; [reflexivity|].
    apply folds_iff. rewrite He. symmetry; apply extensions_lower; exact Hext.
Qed.

End FoldFacts.

(** X20.  The folder loader reads a file exactly when its name does not
    begin with a dot and either its type mentions text or its name ends in
    a dot and one of the eighteen source extensions, in any letter case. *)
Theorem loaded_exactly_text_and_source_files (type name : str) :
  Index.loaded type name = true <->
  startsWith (lit ".") name = false
  /\ (includes type (lit "text") = true
      \/ exists base e ext,
           name = base ++ lit "." ++ e
           /\ In ext Index.sourceExtensions /\ toLowerCase e = lit ext).
Proof.
  rewrite <- sourceFileName_spec. unfold Index.loaded.
  destruct (includes type (lit "text")), (test Index.sourceFileName name),
    (startsWith (lit ".") name); simpl; intuition discriminate.
Qed.
